(** * Signature Engine: coordinate transforms and field rendering

    Shallow embedding of
      - [backend/server.js]: [transformCoordinatesToPDF],
        [calculateAspectRatioFit], the [/sign-pdf] handler with its
        field loop, digests and audit record, and [/verify-hash];
      - [frontend/src/App.jsx]: [pixelToPercentage],
        [percentageToPixel], and the handlers that edit the field list
        ([handleDrop], drag, resize, [updateFieldValue], [deleteField],
        [handleSubmit]).

    JavaScript numbers are modelled as exact rationals ([Q]): every
    arithmetic operator of the source is the corresponding operator of
    [Q], and equality of numbers is [Qeq] ([==]).  This is the exact
    reading of the formulas.  Module [Binary64] has the two numeric
    functions of the backend once more in IEEE-754 binary64, to show
    where rounding makes the code leave the exact result. *)

From Stdlib Require Import QArith Qminmax Lqa.
From Stdlib Require Import String Ascii List Bool Arith Lia.
From Corelib Require Import PrimFloat.
Import ListNotations.

Local Open Scope Q_scope.

(** ** Data model *)

(** [{ x, y, width, height }]: a rectangle.  The same object shape is
    used by the source for percent, point and pixel rectangles. *)
Record Rect : Type := mkRect {
  x : Q;
  y : Q;
  width : Q;
  height : Q
}.

(** [{ width, height }] of a page, in points. *)
Record PageDimensions : Type := mkPageDimensions {
  pageWidth : Q;
  pageHeight : Q
}.

(** Component-wise numeric equality of rectangles. *)
Definition Rect_eq (r s : Rect) : Prop :=
  x r == x s /\ y r == y s /\ width r == width s /\ height r == height s.

(** ** backend/server.js *)

Module Backend.

(** [transformCoordinatesToPDF(percentCoords, pdfPageDimensions)] *)
Definition transformCoordinatesToPDF (percentCoords : Rect)
    (pdfPageDimensions : PageDimensions) : Rect :=
  let xPercent := x percentCoords in
  let yPercent := y percentCoords in
  let widthPercent := width percentCoords in
  let heightPercent := height percentCoords in
  let pageWidth := pageWidth pdfPageDimensions in
  let pageHeight := pageHeight pdfPageDimensions in
  let xPoints := (xPercent / 100) * pageWidth in
  let yPointsFromTop := (yPercent / 100) * pageHeight in
  let widthPoints := (widthPercent / 100) * pageWidth in
  let heightPoints := (heightPercent / 100) * pageHeight in
  let yPointsFromBottom := pageHeight - yPointsFromTop - heightPoints in
  {| x := xPoints;
     y := yPointsFromBottom;
     width := widthPoints;
     height := heightPoints |}.

(** Result of [calculateAspectRatioFit]:
    [{ width, height, offsetX, offsetY }]. *)
Record Fit : Type := mkFit {
  finalWidth : Q;
  finalHeight : Q;
  offsetX : Q;
  offsetY : Q
}.

(** The JavaScript comparison [a > b] on numbers. *)
Definition Qgtb (a b : Q) : bool := negb (Qle_bool a b).

(** The two arms of the [if] in [calculateAspectRatioFit], named so
    that each can be spoken about on its own. *)
Definition fitToWidth (boxWidth boxHeight imgRatio : Q) : Fit :=
  let finalWidth := boxWidth in
  let finalHeight := boxWidth / imgRatio in
  {| finalWidth := finalWidth;
     finalHeight := finalHeight;
     offsetX := 0;
     offsetY := (boxHeight - finalHeight) / 2 |}.

Definition fitToHeight (boxWidth boxHeight imgRatio : Q) : Fit :=
  let finalHeight := boxHeight in
  let finalWidth := boxHeight * imgRatio in
  {| finalWidth := finalWidth;
     finalHeight := finalHeight;
     offsetX := (boxWidth - finalWidth) / 2;
     offsetY := 0 |}.

(** [calculateAspectRatioFit(boxWidth, boxHeight, imgWidth, imgHeight)] *)
Definition calculateAspectRatioFit
    (boxWidth boxHeight imgWidth imgHeight : Q) : Fit :=
  let boxRatio := boxWidth / boxHeight in
  let imgRatio := imgWidth / imgHeight in
  if Qgtb imgRatio boxRatio
  then fitToWidth boxWidth boxHeight imgRatio
  else fitToHeight boxWidth boxHeight imgRatio.

Definition Fit_eq (f g : Fit) : Prop :=
  finalWidth f == finalWidth g /\ finalHeight f == finalHeight g /\
  offsetX f == offsetX g /\ offsetY f == offsetY g.

(** *** The [/sign-pdf] handler *)

(** A field of the request's [fields] array.  The backend never reads
    [id], so it is left out. *)
Record Field : Type := mkField {
  type : string;
  coordinates : Rect;
  value : option string;       (* [None]: null or absent *)
  imageData : option string;   (* a data URL; [None]: null or absent *)
  checked : bool
}.

(** What [embedPng]/[embedJpg] return: the image and, through
    [scale(1)], its natural size. *)
Record EmbeddedImage : Type := mkEmbeddedImage {
  imageBytes : string;
  imgWidth : Q;
  imgHeight : Q
}.

(** One drawing call on the page. *)
Inductive Mark : Type :=
| DrawImage (embeddedImage : EmbeddedImage) (options : Rect)
| DrawText (text : string) (x y size : Q)
| DrawCircle (x y size : Q).

(** A page: its size ([getSize()]) and the drawing calls applied to
    it so far, oldest first. *)
Record Page : Type := mkPage {
  getSize : PageDimensions;
  marks : list Mark
}.

(** State of the field loop: the first page and the lines written
    with [console.error].  The [console.log] diagnostics do not
    influence the result and are left out. *)
Record LoopState : Type := mkLoopState {
  firstPage : Page;
  errorLog : list string
}.

(** Normal completion, or an exception that reaches the handler's
    outer [catch]. *)
Inductive Outcome (A : Type) : Type :=
| Done (a : A)
| Thrown (message : string).
Arguments Done {A} a.
Arguments Thrown {A} message.

(** JavaScript truthiness of a value that is a string, null or
    undefined. *)
Definition truthy (v : option string) : bool :=
  match v with
  | Some s => negb (String.eqb s EmptyString)
  | None => false
  end.

(** [s.includes(needle)] *)
Fixpoint includes (s needle : string) : bool :=
  String.prefix needle s ||
  match s with
  | EmptyString => false
  | String _ rest => includes rest needle
  end.

(** The text of [s] up to its first comma. *)
Fixpoint untilComma (s : string) : string :=
  match s with
  | EmptyString => EmptyString
  | String c rest =>
      if Ascii.eqb c ","%char then EmptyString
      else String c (untilComma rest)
  end.

(** [s.split(',')[1]]: the text between the first and the second comma
    of [s]; [None] (undefined) when [s] has no comma. *)
Fixpoint splitComma1 (s : string) : option string :=
  match s with
  | EmptyString => None
  | String c rest =>
      if Ascii.eqb c ","%char then Some (untilComma rest)
      else splitComma1 rest
  end.

Definition drawOn (p : Page) (m : Mark) : Page :=
  {| getSize := getSize p; marks := marks p ++ [m] |}.

Definition draw (st : LoopState) (m : Mark) : LoopState :=
  {| firstPage := drawOn (firstPage st) m; errorLog := errorLog st |}.

Definition consoleError (st : LoopState) (line : string) : LoopState :=
  {| firstPage := firstPage st; errorLog := errorLog st ++ [line] |}.

Section Pipeline.

(** [pdfDoc.embedPng] and [pdfDoc.embedJpg] applied to the bytes that
    [Buffer.from(payload, 'base64')] yields for the payload of the
    data URL; [None] when the call throws. *)
Variables (embedPng embedJpg : string -> option EmbeddedImage).

(** [new Date().toLocaleDateString()] at the time of the request. *)
Variable today : string.

(** The [drawText] call shared by the text and the date case. *)
Definition drawTextIn (st : LoopState) (text : string) (pdfCoords : Rect)
    : LoopState :=
  draw st (DrawText text
             (x pdfCoords + 5)
             (y pdfCoords + height pdfCoords / 2)
             (Qmin (height pdfCoords * 0.6) 12)).

(** One iteration of [for (const field of fields)]. *)
Definition processField (st : LoopState) (field : Field)
    : Outcome LoopState :=
  let pdfCoords :=
    transformCoordinatesToPDF (coordinates field)
                              (getSize (firstPage st)) in
  if String.eqb (type field) "signature" || String.eqb (type field) "image"
  then
    match imageData field with
    | Some dataUrl =>
        if truthy (Some dataUrl) then
          match splitComma1 dataUrl with
          | None => Thrown "TypeError"
          | Some payload =>
              match (if includes dataUrl "image/png"
                     then embedPng payload else embedJpg payload) with
              | None => Done (consoleError st "Image embed error:")
              | Some embeddedImage =>
                  let fitted :=
                    calculateAspectRatioFit
                      (width pdfCoords) (height pdfCoords)
                      (imgWidth embeddedImage) (imgHeight embeddedImage) in
                  Done (draw st
                    (DrawImage embeddedImage
                       {| x := x pdfCoords + offsetX fitted;
                          y := y pdfCoords + offsetY fitted;
                          width := finalWidth fitted;
                          height := finalHeight fitted |}))
              end
          end
        else Done st
    | None => Done st
    end
  else if String.eqb (type field) "text" then
    match value field with
    | Some text =>
        if truthy (Some text) then Done (drawTextIn st text pdfCoords)
        else Done st
    | None => Done st
    end
  else if String.eqb (type field) "date" then
    let dateValue :=
      match value field with
      | Some text => if truthy (Some text) then text else today
      | None => today
      end in
    Done (drawTextIn st dateValue pdfCoords)
  else if String.eqb (type field) "radio" then
    if checked field then
      let centerX := x pdfCoords + width pdfCoords / 2 in
      let centerY := y pdfCoords + height pdfCoords / 2 in
      let radius := Qmin (width pdfCoords) (height pdfCoords) / 3 in
      Done (draw st (DrawCircle centerX centerY radius))
    else Done st
  else Done st.

(** The whole [for] loop: fields in order, stopping at the first
    exception. *)
Fixpoint processFields (fields : list Field) (st : LoopState)
    : Outcome LoopState :=
  match fields with
  | [] => Done st
  | field :: rest =>
      match processField st field with
      | Done st' => processFields rest st'
      | Thrown message => Thrown message
      end
  end.

(** The parsed request: [fields] and [pdfDimensions] from
    [JSON.parse(req.body.data)], and the pages of the document loaded
    from [req.file.buffer]. *)
Record Request : Type := mkRequest {
  fields : list Field;
  pdfDimensions : option PageDimensions;
  pages : list Page
}.

(** What the handler sends: the signed document with status 200, or
    status 500 with the error message.  [console.error] lines are kept
    beside it. *)
Inductive Response : Type :=
| Signed (signedPages : list Page) (log : list string)
| Status500 (error : string).

(** [app.post('/sign-pdf', ...)].  The two digests are functions of the
    uploaded buffer and of the saved document and are not modelled;
    neither is the audit record. *)
Definition signPdf (req : Request) : Response :=
  match pages req with
  | [] => Status500 "TypeError"
  | page0 :: otherPages =>
      match processFields (fields req)
              {| firstPage := page0; errorLog := [] |} with
      | Done st => Signed (firstPage st :: otherPages) (errorLog st)
      | Thrown message => Status500 message
      end
  end.

End Pipeline.

End Backend.

(** ** frontend/src/App.jsx *)

Module Frontend.

(** [const scale = containerWidth / pageWidth;] *)
Definition scale_of (containerWidth pageWidth : Q) : Q :=
  containerWidth / pageWidth.

Section Editor.

(** The component state the two closures read. *)
Variables (scale pageWidth pageHeight : Q).

(** [pixelToPercentage(pixelX, pixelY, pixelWidth, pixelHeight)] *)
Definition pixelToPercentage (pixelX pixelY pixelWidth pixelHeight : Q)
    : Rect :=
  let actualX := pixelX / scale in
  let actualY := pixelY / scale in
  let actualWidth := pixelWidth / scale in
  let actualHeight := pixelHeight / scale in
  {| x := (actualX / pageWidth) * 100;
     y := (actualY / pageHeight) * 100;
     width := (actualWidth / pageWidth) * 100;
     height := (actualHeight / pageHeight) * 100 |}.

(** [percentageToPixel(field)] *)
Definition percentageToPixel (field : Rect) : Rect :=
  {| x := (x field / 100) * pageWidth * scale;
     y := (y field / 100) * pageHeight * scale;
     width := (width field / 100) * pageWidth * scale;
     height := (height field / 100) * pageHeight * scale |}.

End Editor.

End Frontend.

(** ** frontend/src/App.jsx: the field list of the editor *)

Module Editor.

(** An element of the [fields] state.  [placement] groups the four
    numbers [x], [y], [width], [height] that the source keeps directly
    on the object (spread from the result of [pixelToPercentage]). *)
Record Field : Type := mkField {
  id : nat;                    (* [Date.now()] at the drop *)
  type : string;
  placement : Rect;
  value : string;
  imageData : option string;   (* [None]: null *)
  checked : bool
}.

(** [fields.find(f => f.id === fieldId)] *)
Definition findField (fields : list Field) (fieldId : nat) : option Field :=
  find (fun f => Nat.eqb (id f) fieldId) fields.

(** [{ ...f, x: .., y: .., width: .., height: .. }] *)
Definition withPlacement (f : Field) (r : Rect) : Field :=
  {| id := id f; type := type f; placement := r; value := value f;
     imageData := imageData f; checked := checked f |}.

(** [setContainerWidth(Math.min(containerRef.current.clientWidth - 40, 800))] *)
Definition updateWidth (clientWidth : Q) : Q :=
  Qmin (clientWidth - 40) 800.

(** What [updateFieldValue] can be asked to set: the key and its new
    value. *)
Inductive Update : Type :=
| SetValue (value : string)
| SetImageData (imageData : string)
| SetChecked (checked : bool).

(** [{ ...f, [key]: value }] *)
Definition applyUpdate (f : Field) (u : Update) : Field :=
  match u with
  | SetValue v =>
      {| id := id f; type := type f; placement := placement f; value := v;
         imageData := imageData f; checked := checked f |}
  | SetImageData d =>
      {| id := id f; type := type f; placement := placement f;
         value := value f; imageData := Some d; checked := checked f |}
  | SetChecked c =>
      {| id := id f; type := type f; placement := placement f;
         value := value f; imageData := imageData f; checked := c |}
  end.

(** [updateFieldValue(fieldId, key, value)] *)
Definition updateFieldValue (fields : list Field) (fieldId : nat)
    (u : Update) : list Field :=
  map (fun f => if Nat.eqb (id f) fieldId then applyUpdate f u else f) fields.

(** [deleteField(fieldId)] *)
Definition deleteField (fields : list Field) (fieldId : nat) : list Field :=
  filter (fun f => negb (Nat.eqb (id f) fieldId)) fields.

(** The object [handleSubmit] sends to the backend for one field. *)
Definition toRequestField (f : Field) : Backend.Field :=
  {| Backend.type := type f;
     Backend.coordinates :=
       {| x := x (placement f); y := y (placement f);
          width := width (placement f); height := height (placement f) |};
     Backend.value := Some (value f);
     Backend.imageData := imageData f;
     Backend.checked := checked f |}.

Section View.

(** The component state the handlers read. *)
Variables (scale pageWidth pageHeight : Q).

(** [handleDrop(e)], with [pixelX = e.clientX - rect.left] and
    [pixelY = e.clientY - rect.top]; the container is mounted. *)
Definition handleDrop (fields : list Field) (draggingType : option string)
    (clientX clientY rectLeft rectTop : Q) (now : nat) : list Field :=
  match draggingType with
  | None => fields
  | Some fieldType =>
      if Backend.truthy (Some fieldType) then
        let pixelX := clientX - rectLeft in
        let pixelY := clientY - rectTop in
        let defaultWidth := 150 in
        let defaultHeight := 50 in
        let percentCoords :=
          Frontend.pixelToPercentage scale pageWidth pageHeight
            pixelX pixelY defaultWidth defaultHeight in
        let newField :=
          {| id := now; type := fieldType; placement := percentCoords;
             value := EmptyString; imageData := None; checked := false |} in
        fields ++ [newField]
      else fields
  end.

(** The update a drag applies to the dragged field: the new position
    is clamped with the field's own width and height. *)
Definition dragField (pixelCoords : Rect) (deltaX deltaY : Q) (f : Field)
    : Field :=
  let newPixelX := x pixelCoords + deltaX in
  let newPixelY := y pixelCoords + deltaY in
  let newPercent :=
    Frontend.pixelToPercentage scale pageWidth pageHeight
      newPixelX newPixelY (width pixelCoords) (height pixelCoords) in
  withPlacement f
    {| x := Qmax 0 (Qmin (100 - width (placement f)) (x newPercent));
       y := Qmax 0 (Qmin (100 - height (placement f)) (y newPercent));
       width := width (placement f);
       height := height (placement f) |}.

(** [handleMouseMove] of a drag started on [fieldId] with the captured
    [pixelCoords], applied to the current list. *)
Definition dragMove (pixelCoords : Rect) (fieldId : nat) (deltaX deltaY : Q)
    (prevFields : list Field) : list Field :=
  map (fun f => if Nat.eqb (id f) fieldId
                then dragField pixelCoords deltaX deltaY f else f)
      prevFields.

(** [handleFieldMouseDown(e, fieldId)] followed by one mouse move to
    [(clientX, clientY)].  Nothing happens while a resize is going on,
    nor when no field has the id (the handler then throws before it
    installs its listeners). *)
Definition dragTo (fields : list Field) (resizing : bool) (fieldId : nat)
    (startX startY clientX clientY : Q) : list Field :=
  if resizing then fields
  else
    match findField fields fieldId with
    | None => fields
    | Some field =>
        let pixelCoords :=
          Frontend.percentageToPixel scale pageWidth pageHeight
            (placement field) in
        dragMove pixelCoords fieldId (clientX - startX) (clientY - startY)
                 fields
    end.

(** The pixel rectangle a resize computes from the captured
    [pixelCoords], the dragged [corner] and the mouse displacement. *)
Definition resizedPixels (pixelCoords : Rect) (corner : string)
    (deltaX deltaY : Q) : Rect :=
  let newWidth := width pixelCoords in
  let newHeight := height pixelCoords in
  let newX := x pixelCoords in
  let newY := y pixelCoords in
  let newWidth :=
    if Backend.includes corner "e"
    then Qmax 50 (width pixelCoords + deltaX) else newWidth in
  let newHeight :=
    if Backend.includes corner "s"
    then Qmax 30 (height pixelCoords + deltaY) else newHeight in
  let '(newWidth, newX) :=
    if Backend.includes corner "w"
    then (Qmax 50 (width pixelCoords - deltaX), x pixelCoords + deltaX)
    else (newWidth, newX) in
  let '(newHeight, newY) :=
    if Backend.includes corner "n"
    then (Qmax 30 (height pixelCoords - deltaY), y pixelCoords + deltaY)
    else (newHeight, newY) in
  {| x := newX; y := newY; width := newWidth; height := newHeight |}.

(** [handleMouseMove] of a resize started on [fieldId]. *)
Definition resizeMove (pixelCoords : Rect) (fieldId : nat) (corner : string)
    (deltaX deltaY : Q) (prevFields : list Field) : list Field :=
  let px := resizedPixels pixelCoords corner deltaX deltaY in
  let newPercent :=
    Frontend.pixelToPercentage scale pageWidth pageHeight
      (x px) (y px) (width px) (height px) in
  map (fun f => if Nat.eqb (id f) fieldId
                then withPlacement f newPercent else f)
      prevFields.

(** [handleResizeMouseDown(e, fieldId, corner)] followed by one mouse
    move to [(clientX, clientY)]. *)
Definition resizeTo (fields : list Field) (fieldId : nat) (corner : string)
    (startX startY clientX clientY : Q) : list Field :=
  match findField fields fieldId with
  | None => fields
  | Some field =>
      let pixelCoords :=
        Frontend.percentageToPixel scale pageWidth pageHeight
          (placement field) in
      resizeMove pixelCoords fieldId corner
                 (clientX - startX) (clientY - startY) fields
  end.

(** The payload built by [handleSubmit]; [None] when the guard
    [!pdfFile || fields.length === 0] stops the submission. *)
Definition handleSubmit (pdfFile : bool) (fields : list Field)
    : option (list Backend.Field * PageDimensions) :=
  if negb pdfFile || Nat.eqb (length fields) 0 then None
  else Some (map toRequestField fields,
             mkPageDimensions pageWidth pageHeight).

End View.

End Editor.

(** ** backend/server.js: digests, audit trail and [/verify-hash] *)

Module Server.

(** [metadata] of a [Signature] document. *)
Record Metadata : Type := mkMetadata {
  originalFilename : string;
  fieldsApplied : nat
}.

(** A document of the [Signature] collection. *)
Record Signature : Type := mkSignature {
  originalHash : string;
  signedHash : string;
  timestamp : nat;
  metadata : Metadata
}.

(** [req.file] *)
Record Upload : Type := mkUpload {
  buffer : string;
  originalname : string
}.

(** The reply of [/sign-pdf]: the signed bytes with the two digest
    headers, or status 500. *)
Inductive SignReply : Type :=
| SignedPdf (body : string) (xOriginalHash xSignedHash : string)
| SignError (error : string).

(** The reply of [/verify-hash]. *)
Inductive VerifyReply : Type :=
| Found (record : Signature)
| NotFound
| VerifyError (error : string).

Section Handlers.

Variables (embedPng embedJpg : string -> option Backend.EmbeddedImage).
Variable today : string.

(** [calculateHash(buffer)]: the SHA-256 digest in hexadecimal. *)
Variable calculateHash : string -> string.

(** [PDFDocument.load(pdfBuffer)] followed by [getPages()], and
    [pdfDoc.save()]. *)
Variable load : string -> Backend.Outcome (list Backend.Page).
Variable save : list Backend.Page -> string.

(** [Date.now] for the [timestamp] default. *)
Variable now : nat.

(** [Signature.findOne({ $or: [{ originalHash: hash }, { signedHash:
    hash }] })] on a collection kept in insertion order. *)
Definition findOne (db : list Signature) (hash : string)
    : option Signature :=
  find (fun record => String.eqb (originalHash record) hash ||
                      String.eqb (signedHash record) hash) db.

(** [app.post('/sign-pdf', ...)] with its digests and audit record.
    [data] is the outcome of [JSON.parse(req.body.data)], [file] the
    uploaded file; [dbUp] tells whether the database accepts the
    write. *)
Definition signPdfRoute (db : list Signature) (dbUp : bool)
    (data : Backend.Outcome (list Backend.Field * option PageDimensions))
    (file : Upload) : SignReply * list Signature :=
  match data with
  | Backend.Thrown message => (SignError message, db)
  | Backend.Done (fields, pdfDimensions) =>
      let pdfBuffer := buffer file in
      let originalHash := calculateHash pdfBuffer in
      match load pdfBuffer with
      | Backend.Thrown message => (SignError message, db)
      | Backend.Done pages =>
          match Backend.signPdf embedPng embedJpg today
                  {| Backend.fields := fields;
                     Backend.pdfDimensions := pdfDimensions;
                     Backend.pages := pages |} with
          | Backend.Status500 message => (SignError message, db)
          | Backend.Signed signedPages _ =>
              let signedPdfBytes := save signedPages in
              let signedHash := calculateHash signedPdfBytes in
              let auditRecord :=
                {| originalHash := originalHash;
                   signedHash := signedHash;
                   timestamp := now;
                   metadata :=
                     {| originalFilename := originalname file;
                        fieldsApplied := length fields |} |} in
              if dbUp
              then (SignedPdf signedPdfBytes originalHash signedHash,
                    db ++ [auditRecord])
              else (SignError "MongoError", db)
          end
      end
  end.

(** [app.post('/verify-hash', ...)] *)
Definition verifyHashRoute (db : list Signature) (dbUp : bool)
    (hash : string) : VerifyReply :=
  if dbUp then
    match findOne db hash with
    | Some record => Found record
    | None => NotFound
    end
  else VerifyError "MongoError".

End Handlers.

End Server.

(** ** The numeric functions in binary64

    The same two functions of [backend/server.js] with the arithmetic
    the code runs on: IEEE-754 binary64, every operation rounded to
    nearest, in the order of the source. *)

Module Binary64.

Local Open Scope float_scope.

Record Rect : Type := mkRect {
  x : float;
  y : float;
  width : float;
  height : float
}.

Record PageDimensions : Type := mkPageDimensions {
  pageWidth : float;
  pageHeight : float
}.

(** [transformCoordinatesToPDF(percentCoords, pdfPageDimensions)] *)
Definition transformCoordinatesToPDF (percentCoords : Rect)
    (pdfPageDimensions : PageDimensions) : Rect :=
  let xPercent := x percentCoords in
  let yPercent := y percentCoords in
  let widthPercent := width percentCoords in
  let heightPercent := height percentCoords in
  let pageWidth := pageWidth pdfPageDimensions in
  let pageHeight := pageHeight pdfPageDimensions in
  let xPoints := (xPercent / 100) * pageWidth in
  let yPointsFromTop := (yPercent / 100) * pageHeight in
  let widthPoints := (widthPercent / 100) * pageWidth in
  let heightPoints := (heightPercent / 100) * pageHeight in
  let yPointsFromBottom := pageHeight - yPointsFromTop - heightPoints in
  {| x := xPoints;
     y := yPointsFromBottom;
     width := widthPoints;
     height := heightPoints |}.

Record Fit : Type := mkFit {
  finalWidth : float;
  finalHeight : float;
  offsetX : float;
  offsetY : float
}.

Definition fitToWidth (boxWidth boxHeight imgRatio : float) : Fit :=
  let finalWidth := boxWidth in
  let finalHeight := boxWidth / imgRatio in
  {| finalWidth := finalWidth;
     finalHeight := finalHeight;
     offsetX := 0;
     offsetY := (boxHeight - finalHeight) / 2 |}.

Definition fitToHeight (boxWidth boxHeight imgRatio : float) : Fit :=
  let finalHeight := boxHeight in
  let finalWidth := boxHeight * imgRatio in
  {| finalWidth := finalWidth;
     finalHeight := finalHeight;
     offsetX := (boxWidth - finalWidth) / 2;
     offsetY := 0 |}.

(** [calculateAspectRatioFit(boxWidth, boxHeight, imgWidth, imgHeight)];
    [imgRatio > boxRatio] is [boxRatio <? imgRatio]. *)
Definition calculateAspectRatioFit
    (boxWidth boxHeight imgWidth imgHeight : float) : Fit :=
  let boxRatio := boxWidth / boxHeight in
  let imgRatio := imgWidth / imgHeight in
  if boxRatio <? imgRatio
  then fitToWidth boxWidth boxHeight imgRatio
  else fitToHeight boxWidth boxHeight imgRatio.

(** The invariants of a placement, of a page and of a rectangle on a
    page, as comparisons of doubles. *)
Definition inRange (p : Rect) : bool :=
  (0 <=? x p) && (0 <=? y p) &&
  (x p + width p <=? 100) && (y p + height p <=? 100) &&
  (0 <? width p) && (0 <? height p).

Definition validPage (dims : PageDimensions) : bool :=
  (0 <? pageWidth dims) && (0 <? pageHeight dims).

Definition withinPage (rect : Rect) (dims : PageDimensions) : bool :=
  (0 <=? x rect) && (0 <=? y rect) &&
  (x rect + width rect <=? pageWidth dims) &&
  (y rect + height rect <=? pageHeight dims) &&
  (0 <? width rect) && (0 <? height rect).

End Binary64.

(** ** Specification-side definitions *)

(** Modelled from the spec: the inverse (points to percent) transform
    [pointsToPercent], which the source does not contain.  The spec
    describes it as the exact algebraic inverse of the forward
    transform: each size is divided by the page dimension, and the
    vertical position is measured back from the top edge. *)
Definition pointsToPercent (rect : Rect) (dims : PageDimensions) : Rect :=
  let yFromTop := pageHeight dims - y rect - height rect in
  {| x := (x rect / pageWidth dims) * 100;
     y := (yFromTop / pageHeight dims) * 100;
     width := (width rect / pageWidth dims) * 100;
     height := (height rect / pageHeight dims) * 100 |}.

(** [PageDimensions] must be positive. *)
Definition validPage (dims : PageDimensions) : Prop :=
  0 < pageWidth dims /\ 0 < pageHeight dims.

(** The invariants of a [FieldPlacement]. *)
Definition inRange (p : Rect) : Prop :=
  0 <= x p /\ 0 <= y p /\ x p + width p <= 100 /\ y p + height p <= 100 /\
  0 < width p /\ 0 < height p.

(** A point rectangle that lies entirely within the page. *)
Definition withinPage (rect : Rect) (dims : PageDimensions) : Prop :=
  0 <= x rect /\ 0 <= y rect /\
  x rect + width rect <= pageWidth dims /\
  y rect + height rect <= pageHeight dims /\
  0 < width rect /\ 0 < height rect.

(** The five type tags the field switch has a case for. *)
Definition recognized (tag : string) : bool :=
  String.eqb tag "signature" || String.eqb tag "image" ||
  String.eqb tag "text" || String.eqb tag "date" || String.eqb tag "radio".

(** US Letter, and the placement of the spec's concrete scenario. *)
Definition usLetter : PageDimensions :=
  {| pageWidth := 612; pageHeight := 792 |}.

Definition scenarioPlacement : Rect :=
  {| x := 10; y := 20; width := 25; height := 6 |}.

(** A signature or image field. *)
Definition isImageField (field : Backend.Field) : bool :=
  String.eqb (Backend.type field) "signature" ||
  String.eqb (Backend.type field) "image".

(** The image of a signature or image field fails to decode: the data
    URL carries a payload, and the embedder chosen for it throws. *)
Definition decodeFails (embedPng embedJpg : string -> option Backend.EmbeddedImage)
    (field : Backend.Field) : Prop :=
  isImageField field = true /\
  exists dataUrl payload,
    Backend.imageData field = Some dataUrl /\
    Backend.splitComma1 dataUrl = Some payload /\
    (if Backend.includes dataUrl "image/png"
     then embedPng payload else embedJpg payload) = None.

(** The mark is a text run showing [text]. *)
Definition isTextMark (text : string) (m : Backend.Mark) : bool :=
  match m with
  | Backend.DrawText t _ _ _ => String.eqb t text
  | _ => false
  end.

(** [inner] lies inside [outer]. *)
Definition insideRect (inner outer : Rect) : Prop :=
  x outer <= x inner /\ y outer <= y inner /\
  x inner + width inner <= x outer + width outer /\
  y inner + height inner <= y outer + height outer.

(** The disc of centre [(cx, cy)] and radius [r] lies inside [outer]. *)
Definition discInside (cx cy r : Q) (outer : Rect) : Prop :=
  x outer <= cx - r /\ cx + r <= x outer + width outer /\
  y outer <= cy - r /\ cy + r <= y outer + height outer.

(** The whole page as a rectangle. *)
Definition pageRect (dims : PageDimensions) : Rect :=
  {| x := 0; y := 0; width := pageWidth dims; height := pageHeight dims |}.

(** A signature or image field whose data URL is a non-empty string
    without a comma. *)
Definition missingPayload (field : Backend.Field) : bool :=
  isImageField field &&
  match Backend.imageData field with
  | Some dataUrl =>
      Backend.truthy (Some dataUrl) && negb (Backend.includes dataUrl ",")
  | None => false
  end.

(** The fields that reach no drawing call: an image or signature
    without image data, a text without value, an unchecked radio, and
    any field with another tag than the five of the switch. *)
Definition drawsNothing (field : Backend.Field) : bool :=
  if isImageField field
  then negb (Backend.truthy (Backend.imageData field))
  else if String.eqb (Backend.type field) "text"
  then negb (Backend.truthy (Backend.value field))
  else if String.eqb (Backend.type field) "date" then false
  else if String.eqb (Backend.type field) "radio"
  then negb (Backend.checked field)
  else true.

(** A sufficient condition for [drawText] with the standard font to
    accept a text: every character is printable ASCII, which the
    WinAnsi encoding of pdf-lib covers. *)
Fixpoint printableAscii (s : string) : bool :=
  match s with
  | EmptyString => true
  | String c rest =>
      Nat.leb 32 (nat_of_ascii c) && Nat.leb (nat_of_ascii c) 126 &&
      printableAscii rest
  end.

(** [field.value || new Date().toLocaleDateString()] *)
Definition dateText (today : string) (field : Backend.Field) : string :=
  match Backend.value field with
  | Some text => if Backend.truthy (Some text) then text else today
  | None => today
  end.

(** *** Sample data *)

(** An embedder that accepts one payload, as a 300x100 image, and
    rejects every other. *)
Definition sampleEmbed (payload : string) : option Backend.EmbeddedImage :=
  if String.eqb payload "iVBORw0KGgo="
  then Some {| Backend.imageBytes := payload;
               Backend.imgWidth := 300; Backend.imgHeight := 100 |}
  else None.

Definition blankPage : Backend.Page :=
  {| Backend.getSize := usLetter; Backend.marks := [] |}.

Definition corruptSignature : Backend.Field :=
  {| Backend.type := "signature";
     Backend.coordinates := scenarioPlacement;
     Backend.value := Some EmptyString;
     Backend.imageData := Some "data:image/png;base64,AAAA"%string;
     Backend.checked := false |}.

Definition validText : Backend.Field :=
  {| Backend.type := "text";
     Backend.coordinates := {| x := 10; y := 40; width := 25; height := 6 |};
     Backend.value := Some "Jane Doe"%string;
     Backend.imageData := None;
     Backend.checked := false |}.

Definition validSignature : Backend.Field :=
  {| Backend.type := "signature";
     Backend.coordinates := scenarioPlacement;
     Backend.value := Some EmptyString;
     Backend.imageData := Some "data:image/png;base64,iVBORw0KGgo="%string;
     Backend.checked := false |}.

Definition commalessSignature : Backend.Field :=
  {| Backend.type := "signature";
     Backend.coordinates := scenarioPlacement;
     Backend.value := Some EmptyString;
     Backend.imageData := Some "iVBORw0KGgo="%string;
     Backend.checked := false |}.

Definition emptyText : Backend.Field :=
  {| Backend.type := "text";
     Backend.coordinates := scenarioPlacement;
     Backend.value := Some EmptyString;
     Backend.imageData := None;
     Backend.checked := false |}.

Definition unknownField : Backend.Field :=
  {| Backend.type := "checkbox";
     Backend.coordinates := scenarioPlacement;
     Backend.value := Some "yes"%string;
     Backend.imageData := None;
     Backend.checked := true |}.

Definition unfilledDate : Backend.Field :=
  {| Backend.type := "date";
     Backend.coordinates := scenarioPlacement;
     Backend.value := Some EmptyString;
     Backend.imageData := None;
     Backend.checked := false |}.

Definition checkedRadio : Backend.Field :=
  {| Backend.type := "radio";
     Backend.coordinates := {| x := 90; y := 94; width := 10; height := 6 |};
     Backend.value := Some EmptyString;
     Backend.imageData := None;
     Backend.checked := true |}.

Definition sampleEditorField : Editor.Field :=
  {| Editor.id := 7;
     Editor.type := "text";
     Editor.placement := scenarioPlacement;
     Editor.value := EmptyString;
     Editor.imageData := None;
     Editor.checked := false |}.

(** Stand-ins for the digest, the PDF loader and the PDF writer. *)
Definition sampleHash (bytes : string) : string :=
  String.append "sha256:" bytes.

Definition sampleLoad (bytes : string) : Backend.Outcome (list Backend.Page) :=
  if String.eqb bytes "%PDF-1.7"
  then Backend.Done [blankPage]
  else Backend.Thrown "Failed to parse PDF document".

Definition sampleSave (pages : list Backend.Page) : string :=
  String.append "%PDF-1.7 pages:"
    (String.concat "," (map (fun _ => "p"%string) pages)).

Definition sampleUpload : Server.Upload :=
  {| Server.buffer := "%PDF-1.7"; Server.originalname := "contract.pdf" |}.

Definition blankState : Backend.LoopState :=
  {| Backend.firstPage := blankPage; Backend.errorLog := [] |}.

Definition requestOf (fields : list Backend.Field)
    (hint : option PageDimensions) : Backend.Request :=
  {| Backend.fields := fields;
     Backend.pdfDimensions := hint;
     Backend.pages := [blankPage] |}.

(** * Properties *)

Import Backend.

(** ** Coordinate transformer *)

Section Transformer.

Variables (p : Rect) (dims : PageDimensions).

Let rect := transformCoordinatesToPDF p dims.

(** The top edge of the transformed box is as far below the top of the
    page as the placement says: the flip takes the box height into
    account. *)
Lemma transform_top_edge :
  y rect + height rect == pageHeight dims - (y p / 100) * pageHeight dims.
Proof. unfold rect; simpl; ring. Qed.

(** A top-anchored placement ends up [hPts] below the top of the page. *)
Lemma transform_top_anchored :
  y p == 0 -> y rect == pageHeight dims - height rect.
Proof. intros H; unfold rect; simpl; rewrite H; field. Qed.

(** A bottom-anchored placement ends up on the bottom edge. *)
Lemma transform_bottom_anchored :
  y p + height p == 100 -> y rect == 0.
Proof.
  intros H; unfold rect; simpl.
  assert (E : y p == 100 - height p) by lra.
  rewrite E; field.
Qed.

End Transformer.

(** C1.  For every placement and page, the forward transform returns
    [xPts = (x/100)*pageWidth], [wPts = (width/100)*pageWidth],
    [hPts = (height/100)*pageHeight] and the bottom-left-origin
    [y = pageHeight - (y/100)*pageHeight - hPts], so that the top edge
    of the box is [(y/100)*pageHeight] below the top of the page; on a
    612x792 page the
    placement [{x:10, y:20, width:25, height:6}] maps to
    [x = 61.2], [width = 153.0], [height = 47.52], [y = 586.08]. *)
Theorem transformCoordinatesToPDF_formula :
  (forall (p : Rect) (dims : PageDimensions),
     let rect := transformCoordinatesToPDF p dims in
     x rect = (x p / 100) * pageWidth dims /\
     width rect = (width p / 100) * pageWidth dims /\
     height rect = (height p / 100) * pageHeight dims /\
     y rect = pageHeight dims - (y p / 100) * pageHeight dims - height rect /\
     y rect + height rect == pageHeight dims - (y p / 100) * pageHeight dims) /\
  Rect_eq (transformCoordinatesToPDF scenarioPlacement usLetter)
          {| x := 61.2; y := 586.08; width := 153.0; height := 47.52 |}.
Proof.
  split.
  - intros p dims rect. subst rect.
    split; [reflexivity|]. split; [reflexivity|]. split; [reflexivity|].
    split; [reflexivity|]. apply transform_top_edge.
  - unfold Rect_eq, transformCoordinatesToPDF, scenarioPlacement, usLetter.
    cbn [x y width height pageWidth pageHeight].
    repeat split; reflexivity.
Qed.

(** C2.  For every valid page, [pointsToPercent] applied to the result
    of the forward transform gives the placement back (exactly, over
    the rationals); no range condition on the placement is needed. *)
Theorem roundtrip_percent_points (p : Rect) (dims : PageDimensions) :
  validPage dims ->
  Rect_eq (pointsToPercent (transformCoordinatesToPDF p dims) dims) p.
Proof.
  intros [Hw Hh].
  unfold Rect_eq, pointsToPercent, transformCoordinatesToPDF.
  cbn [x y width height].
  repeat split; field; intro E; rewrite E in *; lra.
Qed.

Lemma roundtrip_percent_points_witness :
  validPage usLetter /\
  Rect_eq (pointsToPercent
             (transformCoordinatesToPDF scenarioPlacement usLetter) usLetter)
          scenarioPlacement.
Proof.
  assert (V : validPage usLetter) by (split; reflexivity).
  split; [exact V | exact (roundtrip_percent_points scenarioPlacement usLetter V)].
Defined.

(** Multiplying a fraction in [0, 1] of a positive length. *)
Lemma percent_of_nonneg (a len : Q) :
  0 <= a -> 0 < len -> 0 <= (a / 100) * len.
Proof.
  intros Ha Hl. apply Qmult_le_0_compat; [|lra].
  apply Qle_shift_div_l; lra.
Qed.

Lemma percent_of_pos (a len : Q) :
  0 < a -> 0 < len -> 0 < (a / 100) * len.
Proof.
  intros Ha Hl. apply Qmult_lt_0_compat; [|lra].
  apply Qlt_shift_div_l; lra.
Qed.

Lemma percent_of_le_whole (a len : Q) :
  a <= 100 -> 0 < len -> (a / 100) * len <= len.
Proof.
  intros Ha Hl.
  assert (E : len - (a / 100) * len == ((100 - a) / 100) * len) by field.
  assert (N : 0 <= ((100 - a) / 100) * len)
    by (apply percent_of_nonneg; lra).
  lra.
Qed.

(** C3, in exact arithmetic.  With the formulas of the transform
    evaluated exactly, an in-range placement on a valid page is
    transformed to a rectangle that lies entirely within the page. *)
Theorem transform_within_page (p : Rect) (dims : PageDimensions) :
  inRange p -> validPage dims ->
  withinPage (transformCoordinatesToPDF p dims) dims.
Proof.
  intros (Hx & Hy & Hxw & Hyh & Hw & Hh) [Hpw Hph].
  unfold withinPage, transformCoordinatesToPDF.
  cbn [x y width height].
  set (W := pageWidth dims) in *. set (H := pageHeight dims) in *.
  repeat split.
  - now apply percent_of_nonneg.
  - assert (E : H - y p / 100 * H - height p / 100 * H
                == H - ((y p + height p) / 100) * H) by field.
    rewrite E.
    pose proof (percent_of_le_whole (y p + height p) H Hyh Hph). lra.
  - assert (E : x p / 100 * W + width p / 100 * W
                == ((x p + width p) / 100) * W) by field.
    rewrite E. now apply percent_of_le_whole.
  - pose proof (percent_of_nonneg (y p) H Hy Hph). lra.
  - now apply percent_of_pos.
  - now apply percent_of_pos.
Qed.

Lemma transform_within_page_witness :
  inRange scenarioPlacement /\ validPage usLetter /\
  withinPage (transformCoordinatesToPDF scenarioPlacement usLetter) usLetter.
Proof.
  assert (R : inRange scenarioPlacement).
  { unfold inRange, scenarioPlacement; cbn [x y width height].
    repeat split; try discriminate; reflexivity. }
  assert (V : validPage usLetter) by (split; reflexivity).
  split; [exact R | split; [exact V |]].
  exact (transform_within_page scenarioPlacement usLetter R V).
Defined.

(** In binary64 the bounds of C3 are missed by rounding: the in-range
    placement [{x:7, y:93, width:93, height:7}] on a 612x792 page gets a
    negative [y], and [x + width] beyond the page width. *)
Lemma transform_within_page_binary64 :
  let p := Binary64.mkRect 7 93 93 7 in
  let dims := Binary64.mkPageDimensions 612 792 in
  let rect := Binary64.transformCoordinatesToPDF p dims in
  Binary64.inRange p = true /\ Binary64.validPage dims = true /\
  Binary64.withinPage rect dims = false /\
  PrimFloat.ltb (Binary64.y rect) 0 = true /\
  PrimFloat.ltb (Binary64.pageWidth dims)
                (PrimFloat.add (Binary64.x rect) (Binary64.width rect))
  = true.
Proof. vm_compute. repeat split. Qed.

(** ** Aspect-fit calculator *)

Lemma Qgtb_true (a b : Q) : Qgtb a b = true <-> b < a.
Proof.
  unfold Qgtb. rewrite negb_true_iff.
  split.
  - intro H. apply Qnot_le_lt. intro L.
    apply Qle_bool_iff in L. congruence.
  - intro H. destruct (Qle_bool a b) eqn:E; [|reflexivity].
    apply Qle_bool_iff in E. lra.
Qed.

Lemma Qgtb_false (a b : Q) : Qgtb a b = false <-> a <= b.
Proof.
  unfold Qgtb. rewrite negb_false_iff. apply Qle_bool_iff.
Qed.

(** Comparing two ratios of positive numbers is comparing the cross
    products. *)
Lemma ratio_lt_cross (a b c d : Q) :
  0 < b -> 0 < d -> (a / b < c / d <-> a * d < c * b).
Proof.
  intros Hb Hd.
  assert (E1 : a / b == (a * d) / (b * d)) by (field; split; lra).
  assert (E2 : c / d == (c * b) / (b * d)) by (field; split; lra).
  assert (Hbd : 0 < b * d) by (apply Qmult_lt_0_compat; lra).
  rewrite E1, E2. split; intro H.
  - apply Qmult_lt_r with (z := / (b * d)).
    + now apply Qinv_lt_0_compat.
    + exact H.
  - apply Qmult_lt_r with (z := / (b * d)) in H.
    + exact H.
    + now apply Qinv_lt_0_compat.
Qed.

Lemma ratio_le_cross (a b c d : Q) :
  0 < b -> 0 < d -> (a / b <= c / d <-> a * d <= c * b).
Proof.
  intros Hb Hd. split; intro H.
  - apply Qnot_lt_le. intro L.
    apply (ratio_lt_cross c d a b Hd Hb) in L. lra.
  - apply Qnot_lt_le. intro L.
    apply (ratio_lt_cross c d a b Hd Hb) in L. lra.
Qed.

Section AspectFit.

Variables (boxWidth boxHeight contentWidth contentHeight : Q).
Hypotheses (HboxW : 0 < boxWidth) (HboxH : 0 < boxHeight)
           (HconW : 0 < contentWidth) (HconH : 0 < contentHeight).

Let contentRatio := contentWidth / contentHeight.
Let boxRatio := boxWidth / boxHeight.

Lemma contentRatio_pos : 0 < contentRatio.
Proof. unfold contentRatio. apply Qlt_shift_div_l; lra. Qed.

(** The height chosen by the fit-to-width arm, as a single fraction. *)
Lemma fitToWidth_height :
  finalHeight (fitToWidth boxWidth boxHeight contentRatio)
  == boxWidth * contentHeight / contentWidth.
Proof.
  unfold fitToWidth, contentRatio; cbn [finalHeight].
  field; split; intro E; rewrite E in *; lra.
Qed.

(** The width chosen by the fit-to-height arm, as a single fraction. *)
Lemma fitToHeight_width :
  finalWidth (fitToHeight boxWidth boxHeight contentRatio)
  == boxHeight * contentWidth / contentHeight.
Proof.
  unfold fitToHeight, contentRatio; cbn [finalWidth].
  field; intro E; rewrite E in *; lra.
Qed.

(** Both arms keep the aspect ratio of the content. *)
Lemma fitToWidth_ratio :
  let f := fitToWidth boxWidth boxHeight contentRatio in
  finalWidth f / finalHeight f == contentRatio.
Proof.
  unfold fitToWidth, contentRatio; cbn [finalWidth finalHeight].
  field; repeat split; intro E; rewrite E in *; lra.
Qed.

Lemma fitToHeight_ratio :
  let f := fitToHeight boxWidth boxHeight contentRatio in
  finalWidth f / finalHeight f == contentRatio.
Proof.
  unfold fitToHeight, contentRatio; cbn [finalWidth finalHeight].
  field; repeat split; intro E; rewrite E in *; lra.
Qed.

(** Both arms centre the content on both axes. *)
Lemma fitToWidth_centered :
  let f := fitToWidth boxWidth boxHeight contentRatio in
  offsetX f + finalWidth f / 2 == boxWidth / 2 /\
  offsetY f + finalHeight f / 2 == boxHeight / 2.
Proof.
  pose proof contentRatio_pos as P.
  cbn [fitToWidth offsetX offsetY finalWidth finalHeight].
  split; field; intro E; rewrite E in P; lra.
Qed.

Lemma fitToHeight_centered :
  let f := fitToHeight boxWidth boxHeight contentRatio in
  offsetX f + finalWidth f / 2 == boxWidth / 2 /\
  offsetY f + finalHeight f / 2 == boxHeight / 2.
Proof. cbn; split; field. Qed.

(** When the content is relatively wider, fitting to the width does not
    overflow the height. *)
Lemma fitToWidth_fits :
  boxRatio < contentRatio ->
  finalHeight (fitToWidth boxWidth boxHeight contentRatio) <= boxHeight.
Proof.
  intro H. rewrite fitToWidth_height.
  apply (ratio_lt_cross boxWidth boxHeight contentWidth contentHeight
           HboxH HconH) in H.
  apply Qle_shift_div_r; lra.
Qed.

(** Otherwise fitting to the height does not overflow the width. *)
Lemma fitToHeight_fits :
  contentRatio <= boxRatio ->
  finalWidth (fitToHeight boxWidth boxHeight contentRatio) <= boxWidth.
Proof.
  intro H. rewrite fitToHeight_width.
  apply (ratio_le_cross contentWidth contentHeight boxWidth boxHeight
           HconH HboxH) in H.
  apply Qle_shift_div_r; lra.
Qed.

End AspectFit.

(** C4, in exact arithmetic.  With the formulas of the calculator
    evaluated exactly, for positive box and content sizes the fitted
    content keeps the content's aspect ratio, does not exceed the box
    in either direction, and is centred on the slack axis: vertically
    when the content is relatively wider than the box (fit to width),
    horizontally otherwise (fit to height). *)
Theorem calculateAspectRatioFit_invariant
    (boxWidth boxHeight contentWidth contentHeight : Q) :
  0 < boxWidth -> 0 < boxHeight -> 0 < contentWidth -> 0 < contentHeight ->
  let fit :=
    calculateAspectRatioFit boxWidth boxHeight contentWidth contentHeight in
  finalWidth fit / finalHeight fit == contentWidth / contentHeight /\
  finalWidth fit <= boxWidth /\
  finalHeight fit <= boxHeight /\
  (boxWidth / boxHeight < contentWidth / contentHeight ->
     offsetX fit == 0 /\
     offsetY fit + finalHeight fit / 2 == boxHeight / 2) /\
  (contentWidth / contentHeight <= boxWidth / boxHeight ->
     offsetY fit == 0 /\
     offsetX fit + finalWidth fit / 2 == boxWidth / 2) /\
  (offsetX fit + finalWidth fit / 2 == boxWidth / 2 \/
   offsetY fit + finalHeight fit / 2 == boxHeight / 2).
Proof.
  intros HbW HbH HcW HcH fit. subst fit.
  unfold calculateAspectRatioFit.
  destruct (Qgtb (contentWidth / contentHeight) (boxWidth / boxHeight)) eqn:C.
  - apply Qgtb_true in C.
    pose proof (fitToWidth_ratio boxWidth boxHeight contentWidth contentHeight
                  HbW HcW HcH) as R.
    pose proof (fitToWidth_fits boxWidth boxHeight contentWidth contentHeight
                  HbH HcW HcH C) as F.
    pose proof (fitToWidth_centered boxWidth boxHeight contentWidth
                  contentHeight HcW HcH) as [CX CY].
    cbv zeta in R, F, CX, CY.
    split; [exact R|]. split; [cbn [fitToWidth finalWidth]; lra|].
    split; [exact F|]. split; [|split].
    + intros _. split; [reflexivity | exact CY].
    + intro L. lra.
    + now left.
  - apply Qgtb_false in C.
    pose proof (fitToHeight_ratio boxWidth boxHeight contentWidth contentHeight
                  HbH HcH) as R.
    pose proof (fitToHeight_fits boxWidth boxHeight contentWidth contentHeight
                  HbH HcH C) as F.
    pose proof (fitToHeight_centered boxWidth boxHeight contentWidth
                  contentHeight) as [CX CY].
    cbv zeta in R, F, CX, CY.
    split; [exact R|]. split; [exact F|].
    split; [cbn [fitToHeight finalHeight]; lra|]. split; [|split].
    + intro L. lra.
    + intros _. split; [reflexivity | exact CX].
    + now left.
Qed.

Lemma calculateAspectRatioFit_invariant_witness :
  let fit := calculateAspectRatioFit 153 47.52 300 100 in
  finalWidth fit / finalHeight fit == 300 / 100 /\
  finalWidth fit <= 153 /\
  finalHeight fit <= 47.52 /\
  offsetY fit == 0 /\
  offsetX fit + finalWidth fit / 2 == 153 / 2.
Proof.
  destruct (calculateAspectRatioFit_invariant 153 47.52 300 100)
    as (R & W & H & _ & T & _); try reflexivity.
  destruct T as [OY CX]; [discriminate|].
  repeat split; assumption.
Defined.

(** In binary64 the bounds of C4 are missed by rounding: for a 7x25 box
    and a 70x250 image the two ratios are the same double, the fit to
    the height is taken, and [25 * (70 / 250)] is one unit in the last
    place above 7: the fitted width exceeds the box width and the
    offset is negative. *)
Lemma calculateAspectRatioFit_binary64 :
  let fit := Binary64.calculateAspectRatioFit 7 25 70 250 in
  PrimFloat.ltb 7 (Binary64.finalWidth fit) = true /\
  PrimFloat.leb (Binary64.finalWidth fit) 7 = false /\
  PrimFloat.ltb (Binary64.offsetX fit) 0 = true.
Proof. vm_compute. repeat split. Qed.

(** The spec's scenario: a 300x100 signature in the 153.0x47.52 box is
    fitted to the height. *)
Example calculateAspectRatioFit_scenario :
  Fit_eq (calculateAspectRatioFit 153 47.52 300 100)
         {| finalWidth := 142.56; finalHeight := 47.52;
            offsetX := 5.22; offsetY := 0 |}.
Proof. repeat split; reflexivity. Qed.

(** C5, in exact arithmetic.  On a tie the arm that is taken is the
    fit to height, and with the formulas evaluated exactly it and the
    arm that is not taken (fit to width) give the same numbers, namely
    [(boxWidth, boxHeight, 0, 0)]. *)
Theorem calculateAspectRatioFit_tie
    (boxWidth boxHeight contentWidth contentHeight : Q) :
  0 < boxWidth -> 0 < boxHeight -> 0 < contentWidth -> 0 < contentHeight ->
  contentWidth / contentHeight == boxWidth / boxHeight ->
  let contentRatio := contentWidth / contentHeight in
  let whole := {| finalWidth := boxWidth; finalHeight := boxHeight;
                  offsetX := 0; offsetY := 0 |} in
  calculateAspectRatioFit boxWidth boxHeight contentWidth contentHeight
    = fitToHeight boxWidth boxHeight contentRatio /\
  Fit_eq (fitToHeight boxWidth boxHeight contentRatio) whole /\
  Fit_eq (fitToWidth boxWidth boxHeight contentRatio) whole /\
  Fit_eq (calculateAspectRatioFit boxWidth boxHeight
            contentWidth contentHeight)
         (fitToWidth boxWidth boxHeight contentRatio).
Proof.
  intros HbW HbH HcW HcH Tie contentRatio whole.
  assert (Taken :
    calculateAspectRatioFit boxWidth boxHeight contentWidth contentHeight
    = fitToHeight boxWidth boxHeight contentRatio).
  { unfold calculateAspectRatioFit.
    assert (C : Qgtb (contentWidth / contentHeight) (boxWidth / boxHeight)
                = false) by (apply Qgtb_false; lra).
    now rewrite C. }
  assert (NZ : ~ boxWidth / boxHeight == 0).
  { assert (0 < boxWidth / boxHeight) by (apply Qlt_shift_div_l; lra). lra. }
  assert (FH : Fit_eq (fitToHeight boxWidth boxHeight contentRatio) whole).
  { unfold Fit_eq, fitToHeight, whole, contentRatio;
      cbn [finalWidth finalHeight offsetX offsetY].
    rewrite Tie.
    repeat split; try reflexivity; field; lra. }
  assert (FW : Fit_eq (fitToWidth boxWidth boxHeight contentRatio) whole).
  { unfold Fit_eq, fitToWidth, whole, contentRatio;
      cbn [finalWidth finalHeight offsetX offsetY].
    rewrite Tie.
    repeat split; try reflexivity; field; split; lra. }
  split; [exact Taken|]. split; [exact FH|]. split; [exact FW|].
  rewrite Taken.
  destruct FH as (A1 & A2 & A3 & A4), FW as (B1 & B2 & B3 & B4).
  unfold Fit_eq. rewrite A1, A2, A3, A4, B1, B2, B3, B4.
  repeat split; reflexivity.
Qed.

Lemma calculateAspectRatioFit_tie_witness :
  Fit_eq (calculateAspectRatioFit 150 50 300 100)
         (fitToWidth 150 50 (300 / 100)) /\
  Fit_eq (calculateAspectRatioFit 150 50 300 100)
         {| finalWidth := 150; finalHeight := 50;
            offsetX := 0; offsetY := 0 |}.
Proof.
  destruct (calculateAspectRatioFit_tie 150 50 300 100)
    as (T & FH & _ & E); try reflexivity.
  split; [exact E|]. rewrite T. exact FH.
Defined.

(** In binary64 the two arms differ on a tie: for a 1x49 box and a 1x49
    image the ratios are equal, the arm taken returns a width below 1
    and a positive offset, not [(1, 49, 0, 0)], and the other arm
    returns a height above 49. *)
Lemma calculateAspectRatioFit_tie_binary64 :
  let taken := Binary64.calculateAspectRatioFit 1 49 1 49 in
  let other := Binary64.fitToWidth 1 49 (PrimFloat.div 1 49) in
  PrimFloat.eqb (PrimFloat.div 1 49) (PrimFloat.div 1 49) = true /\
  taken = Binary64.fitToHeight 1 49 (PrimFloat.div 1 49) /\
  PrimFloat.ltb (Binary64.finalWidth taken) 1 = true /\
  PrimFloat.ltb 0 (Binary64.offsetX taken) = true /\
  PrimFloat.eqb (Binary64.finalWidth taken) (Binary64.finalWidth other)
  = false /\
  PrimFloat.ltb 49 (Binary64.finalHeight other) = true.
Proof. vm_compute. repeat split. Qed.

(** ** Editing-surface transform *)

Import Frontend.

(** C9.  The editing-surface transform maps each pixel quantity to
    [pixel / scale / pageDimension * 100]; [y] is treated exactly as [x]
    (exchanging the two axes of the input exchanges them in the output,
    and pixel 0 is percent 0 on both: no origin flip); and for a positive
    scale and page, [percentageToPixel] undoes [pixelToPercentage]. *)
Theorem pixel_percent_roundtrip
    (scale pageWidth pageHeight pixelX pixelY pixelWidth pixelHeight : Q) :
  0 < scale -> 0 < pageWidth -> 0 < pageHeight ->
  let percent :=
    pixelToPercentage scale pageWidth pageHeight
                      pixelX pixelY pixelWidth pixelHeight in
  let swapped :=
    pixelToPercentage scale pageHeight pageWidth
                      pixelY pixelX pixelHeight pixelWidth in
  (x percent = pixelX / scale / pageWidth * 100 /\
   y percent = pixelY / scale / pageHeight * 100 /\
   width percent = pixelWidth / scale / pageWidth * 100 /\
   height percent = pixelHeight / scale / pageHeight * 100) /\
  (x swapped = y percent /\ y swapped = x percent /\
   width swapped = height percent /\ height swapped = width percent) /\
  (pixelY == 0 -> y percent == 0) /\
  Rect_eq (percentageToPixel scale pageWidth pageHeight percent)
          {| x := pixelX; y := pixelY;
             width := pixelWidth; height := pixelHeight |}.
Proof.
  intros Hs Hw Hh percent swapped. subst percent swapped.
  unfold pixelToPercentage, percentageToPixel, Rect_eq.
  cbn [x y width height].
  split; [repeat split|]. split; [repeat split|]. split.
  - intro Z. rewrite Z. field. split; lra.
  - repeat split; field; repeat split; lra.
Qed.

Lemma pixel_percent_roundtrip_witness :
  Rect_eq (percentageToPixel (scale_of 800 612) 612 792
             (pixelToPercentage (scale_of 800 612) 612 792 80 160 150 50))
          {| x := 80; y := 160; width := 150; height := 50 |}.
Proof.
  destruct (pixel_percent_roundtrip (scale_of 800 612) 612 792 80 160 150 50)
    as (_ & _ & _ & R); try reflexivity.
  exact R.
Defined.

(** ** Field renderer and pipeline *)

Example splitComma1_dataUrl :
  splitComma1 "data:image/png;base64,iVBORw0KGgo=" = Some "iVBORw0KGgo="%string.
Proof. reflexivity. Qed.

Example splitComma1_second_part : splitComma1 "a,b,c" = Some "b"%string.
Proof. reflexivity. Qed.

Example splitComma1_no_comma : splitComma1 "garbage" = None.
Proof. reflexivity. Qed.

Example includes_png :
  includes "data:image/png;base64,AAAA" "image/png" = true /\
  includes "data:image/jpeg;base64,AAAA" "image/png" = false.
Proof. split; reflexivity. Qed.

(** The spec's scenario end to end: the 300x100 signature is drawn
    fitted to the height of the scenario box and centred in its width. *)
Example processField_signature_scenario :
  exists embeddedImage options,
    processField sampleEmbed sampleEmbed "11/1/2026" blankState validSignature
    = Done (draw blankState (DrawImage embeddedImage options)) /\
    Rect_eq options
      {| x := 66.42; y := 586.08; width := 142.56; height := 47.52 |}.
Proof.
  eexists; eexists. split; [reflexivity|].
  repeat split; reflexivity.
Qed.

(** A text field is drawn 5 points in from the left edge, at mid-height,
    with size [min(0.6 * height, 12)]. *)
Example processField_text_scenario :
  exists tx ty size,
    processField sampleEmbed sampleEmbed "11/1/2026" blankState validText
    = Done (draw blankState (DrawText "Jane Doe" tx ty size)) /\
    tx == 66.2 /\ ty == 451.44 /\ size == 12.
Proof.
  do 3 eexists. split; [reflexivity|].
  repeat split; reflexivity.
Qed.

Section PipelineFacts.

Variables (embedPng embedJpg : string -> option EmbeddedImage).
Variable today : string.

Local Abbreviation processField := (processField embedPng embedJpg today).
Local Abbreviation processFields := (processFields embedPng embedJpg today).
Local Abbreviation signPdf := (signPdf embedPng embedJpg today).

(** The loop over a concatenation runs the first part, then the
    second from where the first stopped. *)
Lemma processFields_app (before after : list Field) (st : LoopState) :
  processFields (before ++ after) st =
  match processFields before st with
  | Done st' => processFields after st'
  | Thrown message => Thrown message
  end.
Proof.
  revert st. induction before as [|field before IH]; intro st; simpl.
  - reflexivity.
  - destruct (processField st field); [apply IH | reflexivity].
Qed.

(** No iteration changes the size of the page. *)
Lemma processField_getSize (st st' : LoopState) (field : Field) :
  processField st field = Done st' ->
  getSize (firstPage st') = getSize (firstPage st).
Proof.
  unfold Backend.processField, drawTextIn.
  repeat match goal with
  | |- context [if ?b then _ else _] => destruct b
  | |- context [match ?o with Some _ => _ | None => _ end] => destruct o
  end; intro E; inversion E; reflexivity.
Qed.

Lemma processFields_getSize (fields : list Field) (st st' : LoopState) :
  processFields fields st = Done st' ->
  getSize (firstPage st') = getSize (firstPage st).
Proof.
  revert st. induction fields as [|field rest IH]; intros st E; simpl in E.
  - now inversion E.
  - destruct (processField st field) as [st1|] eqn:E1; [|discriminate].
    rewrite (IH _ E). now apply processField_getSize in E1.
Qed.

(** A data URL with a payload is not the empty string. *)
Lemma splitComma1_truthy (dataUrl payload : string) :
  splitComma1 dataUrl = Some payload -> truthy (Some dataUrl) = true.
Proof. destruct dataUrl; [discriminate | reflexivity]. Qed.

(** A data URL without a comma has no payload; [Buffer.from] is then
    called on [undefined], before the inner [try], and the exception
    ends the request. *)
Remark processField_no_comma (st : LoopState) (field : Field)
    (dataUrl : string) :
  isImageField field = true ->
  imageData field = Some dataUrl ->
  truthy (Some dataUrl) = true ->
  splitComma1 dataUrl = None ->
  processField st field = Thrown "TypeError".
Proof.
  unfold isImageField, Backend.processField. intros T D Tr S.
  now rewrite T, D, Tr, S.
Qed.

(** C6, as the code has it.  A field whose type tag is none of
    [signature], [image], [text], [date], [radio] matches no case of the
    switch: the iteration ends normally with the page and the error log
    unchanged, and the loop goes on with the next field. *)
Theorem unrecognized_type_is_skipped (st : LoopState) (field : Field)
    (rest : list Field) :
  recognized (type field) = false ->
  processField st field = Done st /\
  processFields (field :: rest) st = processFields rest st.
Proof.
  unfold recognized. intro U.
  repeat (apply orb_false_iff in U; destruct U as [U ?]).
  assert (E : processField st field = Done st).
  { unfold Backend.processField.
    repeat match goal with H : String.eqb _ _ = false |- _ =>
      rewrite H; clear H end.
    reflexivity. }
  split; [exact E|]. simpl. now rewrite E.
Qed.

(** C7.  When the image of a signature or image field fails to decode,
    the iteration for that field ends normally: nothing is drawn, one
    line is written with [console.error], and the remaining fields are
    processed on the page as the earlier fields left it. *)
Theorem bad_image_is_skipped (before after : list Field) (bad : Field)
    (st st1 : LoopState) :
  decodeFails embedPng embedJpg bad ->
  processFields before st = Done st1 ->
  let warned := consoleError st1 "Image embed error:" in
  processField st1 bad = Done warned /\
  firstPage warned = firstPage st1 /\
  errorLog warned = errorLog st1 ++ ["Image embed error:"%string] /\
  processFields (before ++ bad :: after) st = processFields after warned.
Proof.
  intros (T & dataUrl & payload & D & S & F) B warned.
  assert (E : processField st1 bad = Done warned).
  { unfold Backend.processField, isImageField in *.
    rewrite T, D, (splitComma1_truthy _ _ S), S.
    destruct (includes dataUrl "image/png"); now rewrite F. }
  split; [exact E|]. split; [reflexivity|]. split; [reflexivity|].
  rewrite processFields_app, B. simpl. now rewrite E.
Qed.

(** C8.  Two requests with the same fields and the same document get
    the same response, whatever [pdfDimensions] each of them carries. *)
Theorem pdfDimensions_ignored (req1 req2 : Request) :
  fields req1 = fields req2 ->
  pages req1 = pages req2 ->
  signPdf req1 = signPdf req2.
Proof.
  intros F P. unfold Backend.signPdf. now rewrite F, P.
Qed.

(** C10.  A text field whose value is empty or absent, and a signature
    or image field whose image data is absent (or empty), leave the
    page and the error log as they were, and the iteration ends
    normally. *)
Theorem empty_content_is_skipped (st : LoopState) (field : Field) :
  (type field = "text"%string /\ truthy (value field) = false) \/
  (isImageField field = true /\ truthy (imageData field) = false) ->
  processField st field = Done st.
Proof.
  unfold Backend.processField, isImageField.
  intros [[T V] | [T I]].
  - rewrite T. cbn [String.eqb Ascii.eqb Bool.eqb orb].
    destruct (value field) as [text|]; [|reflexivity].
    now rewrite V.
  - rewrite T.
    destruct (imageData field) as [dataUrl|]; [|reflexivity].
    now rewrite I.
Qed.

End PipelineFacts.

(** *** Sample requests *)

(** A request whose only field has the tag [checkbox] is answered with
    status 200 and the untouched document: no error is raised. *)
Lemma unrecognized_type_not_fatal :
  recognized (type unknownField) = false /\
  signPdf sampleEmbed sampleEmbed "11/1/2026" (requestOf [unknownField] None)
    = Signed [blankPage] [] /\
  forall message,
    signPdf sampleEmbed sampleEmbed "11/1/2026" (requestOf [unknownField] None)
      <> Status500 message.
Proof.
  split; [reflexivity|]. split; [reflexivity|].
  intros message E. discriminate E.
Qed.

Lemma unrecognized_type_is_skipped_witness :
  processFields sampleEmbed sampleEmbed "11/1/2026"
    [unknownField; validText] blankState
  = processFields sampleEmbed sampleEmbed "11/1/2026"
    [validText] blankState.
Proof.
  apply (unrecognized_type_is_skipped sampleEmbed sampleEmbed "11/1/2026").
  reflexivity.
Defined.

Lemma corruptSignature_decodeFails :
  decodeFails sampleEmbed sampleEmbed corruptSignature.
Proof.
  split; [reflexivity|].
  exists "data:image/png;base64,AAAA"%string, "AAAA"%string.
  repeat split.
Defined.

(** One corrupt-image signature field followed by one valid text field:
    the response is the signed document, its page carries the text
    mark, and one error line was written. *)
Lemma bad_image_is_skipped_witness :
  exists page,
    signPdf sampleEmbed sampleEmbed "11/1/2026"
      (requestOf [corruptSignature; validText] None)
    = Signed [page] ["Image embed error:"%string] /\
    existsb (isTextMark "Jane Doe") (marks page) = true /\
    length (marks page) = 1%nat.
Proof.
  pose proof (bad_image_is_skipped sampleEmbed sampleEmbed "11/1/2026"
                [] [validText] corruptSignature
                blankState
                blankState
                corruptSignature_decodeFails eq_refl) as (_ & _ & _ & L).
  unfold blankState in L.
  unfold signPdf, requestOf; cbn [pages fields].
  change [corruptSignature; validText]
    with ([] ++ corruptSignature :: [validText]).
  rewrite L.
  eexists. split; [reflexivity|]. split; reflexivity.
Defined.

Lemma pdfDimensions_ignored_witness :
  signPdf sampleEmbed sampleEmbed "11/1/2026"
    (requestOf [corruptSignature; validText] None)
  = signPdf sampleEmbed sampleEmbed "11/1/2026"
    (requestOf [corruptSignature; validText]
       (Some {| pageWidth := 1; pageHeight := 1 |})).
Proof.
  apply pdfDimensions_ignored; reflexivity.
Defined.

Lemma empty_content_is_skipped_witness :
  processField sampleEmbed sampleEmbed "11/1/2026"
    blankState emptyText
  = Done blankState.
Proof.
  apply empty_content_is_skipped. left. split; reflexivity.
Defined.

(** * Further properties of the code *)

(** ** Aspect fit and drawing geometry *)

(** Linear arithmetic after turning divisions by the constants of the
    source into multiplications. *)
Ltac qlra :=
  unfold Qdiv in *;
  change (/ 2) with (1 # 2) in *;
  change (/ 3) with (1 # 3) in *;
  change (/ 100) with (1 # 100) in *;
  lra.

(** The bounds of the transformed box, one by one. *)
Lemma transform_bounds (p : Rect) (dims : PageDimensions) :
  inRange p -> validPage dims ->
  let box := transformCoordinatesToPDF p dims in
  0 <= x box /\ 0 <= y box /\
  x box + width box <= pageWidth dims /\
  y box + height box <= pageHeight dims /\
  0 < width box /\ 0 < height box.
Proof.
  intros (Hx & Hy & Hxw & Hyh & Hw & Hh) [Hpw Hph] box. subst box.
  unfold transformCoordinatesToPDF. cbn [x y width height].
  set (W := pageWidth dims) in *. set (H := pageHeight dims) in *.
  pose proof (percent_of_nonneg (x p) W Hx Hpw).
  pose proof (percent_of_nonneg (y p) H Hy Hph).
  pose proof (percent_of_pos (width p) W Hw Hpw).
  pose proof (percent_of_pos (height p) H Hh Hph).
  pose proof (percent_of_le_whole (x p + width p) W Hxw Hpw) as A.
  pose proof (percent_of_le_whole (y p + height p) H Hyh Hph) as B.
  assert (EA : (x p + width p) / 100 * W
               == x p / 100 * W + width p / 100 * W) by field.
  assert (EB : (y p + height p) / 100 * H
               == y p / 100 * H + height p / 100 * H) by field.
  rewrite EA in A. rewrite EB in B.
  repeat split; lra.
Qed.

(** Whichever arm is taken, the fitted size has the ratio of the
    image. *)
Lemma calculateAspectRatioFit_ratio_aux
    (boxWidth boxHeight imgWidth imgHeight : Q) :
  0 < boxWidth -> 0 < boxHeight -> 0 < imgWidth -> 0 < imgHeight ->
  let fit := calculateAspectRatioFit boxWidth boxHeight imgWidth imgHeight in
  finalWidth fit / finalHeight fit == imgWidth / imgHeight.
Proof.
  intros HbW HbH HiW HiH fit. subst fit. unfold calculateAspectRatioFit.
  destruct (Qgtb (imgWidth / imgHeight) (boxWidth / boxHeight)).
  - exact (fitToWidth_ratio boxWidth boxHeight imgWidth imgHeight
             HbW HiW HiH).
  - exact (fitToHeight_ratio boxWidth boxHeight imgWidth imgHeight
             HbH HiH).
Qed.

(** Whichever arm is taken, the fitted rectangle is centred in the box
    on both axes and fills one side of the box. *)
Lemma calculateAspectRatioFit_centred_aux
    (boxWidth boxHeight imgWidth imgHeight : Q) :
  0 < imgWidth -> 0 < imgHeight ->
  let fit := calculateAspectRatioFit boxWidth boxHeight imgWidth imgHeight in
  offsetX fit + finalWidth fit / 2 == boxWidth / 2 /\
  offsetY fit + finalHeight fit / 2 == boxHeight / 2 /\
  (finalWidth fit = boxWidth \/ finalHeight fit = boxHeight).
Proof.
  intros HiW HiH fit. subst fit. unfold calculateAspectRatioFit.
  destruct (Qgtb (imgWidth / imgHeight) (boxWidth / boxHeight)).
  - destruct (fitToWidth_centered boxWidth boxHeight imgWidth imgHeight
                HiW HiH) as [CX CY].
    split; [exact CX|]. split; [exact CY|]. now left.
  - destruct (fitToHeight_centered boxWidth boxHeight imgWidth imgHeight)
      as [CX CY].
    split; [exact CX|]. split; [exact CY|]. now right.
Qed.

Section Drawing.

Variables (embedPng embedJpg : string -> option EmbeddedImage).
Variable today : string.

Local Abbreviation processField := (processField embedPng embedJpg today).

(** X2.  A signature or image field whose image is embedded with a
    positive natural size, placed in range on a valid page, is drawn
    exactly once: with the aspect ratio of the image, filling the width
    or the height of the field's box, and with its centre on the centre
    of the box. *)
Theorem image_drawn_centred (st : LoopState) (field : Field)
    (dataUrl payload : string) (img : EmbeddedImage) :
  isImageField field = true ->
  imageData field = Some dataUrl ->
  splitComma1 dataUrl = Some payload ->
  (if includes dataUrl "image/png"
   then embedPng payload else embedJpg payload) = Some img ->
  0 < imgWidth img -> 0 < imgHeight img ->
  inRange (coordinates field) -> validPage (getSize (firstPage st)) ->
  let box :=
    transformCoordinatesToPDF (coordinates field) (getSize (firstPage st)) in
  exists options,
    processField st field = Done (draw st (DrawImage img options)) /\
    width options / height options == imgWidth img / imgHeight img /\
    x options + width options / 2 == x box + width box / 2 /\
    y options + height options / 2 == y box + height box / 2 /\
    (width options = width box \/ height options = height box).
Proof.
  intros T D S E HiW HiH R V box.
  pose proof (transform_bounds _ _ R V) as (_ & _ & _ & _ & Bw & Bh).
  fold box in Bw, Bh.
  pose proof (calculateAspectRatioFit_ratio_aux (width box) (height box)
                (imgWidth img) (imgHeight img) Bw Bh HiW HiH) as Ratio.
  pose proof (calculateAspectRatioFit_centred_aux (width box) (height box)
                (imgWidth img) (imgHeight img) HiW HiH) as (CX & CY & Fill).
  cbv zeta in Ratio, CX, CY, Fill.
  eexists. split.
  - unfold Backend.processField, isImageField in *.
    rewrite T, D, (splitComma1_truthy _ _ S), S.
    destruct (includes dataUrl "image/png"); rewrite E; reflexivity.
  - fold box. cbn [x y width height].
    set (fit := calculateAspectRatioFit (width box) (height box)
                  (imgWidth img) (imgHeight img)) in *.
    split; [exact Ratio|].
    split; [rewrite <- Qplus_assoc, CX; reflexivity|].
    split; [rewrite <- Qplus_assoc, CY; reflexivity | exact Fill].
Qed.

(** The text run that [drawTextIn] adds, in terms of the box and of the
    stored placement. *)
Lemma drawTextIn_mark (st : LoopState) (text : string) (p : Rect) :
  let dims := getSize (firstPage st) in
  let box := transformCoordinatesToPDF p dims in
  exists tx ty size,
    drawTextIn st text box = draw st (DrawText text tx ty size) /\
    tx = x box + 5 /\
    ty = y box + height box / 2 /\
    size = Qmin (height box * 0.6) 12 /\
    size <= 12 /\
    tx == (x p / 100) * pageWidth dims + 5 /\
    ty == pageHeight dims - ((y p + height p / 2) / 100) * pageHeight dims.
Proof.
  intros dims box. do 3 eexists. split; [reflexivity|].
  split; [reflexivity|]. split; [reflexivity|]. split; [reflexivity|].
  split; [apply Q.le_min_r|].
  unfold box, transformCoordinatesToPDF. cbn [x y width height].
  split; [reflexivity | field].
Qed.

(** X3.  A text field whose value is a non-empty printable ASCII text
    adds one text run showing the value at [x = box.x + 5],
    [y = box.y + box.height / 2] and size
    [min(0.6 * box.height, 12)], never above 12.  In terms of the stored
    placement, the run starts 5 points right of [x%] of the page width
    and its baseline is [y% + height%/2] of the page height below the
    top of the page. *)
Theorem text_drawn_at_mid_height (st : LoopState) (field : Field)
    (text : string) :
  type field = "text"%string ->
  value field = Some text -> truthy (Some text) = true ->
  printableAscii text = true ->
  let dims := getSize (firstPage st) in
  let box := transformCoordinatesToPDF (coordinates field) dims in
  exists tx ty size,
    processField st field = Done (draw st (DrawText text tx ty size)) /\
    tx = x box + 5 /\
    ty = y box + height box / 2 /\
    size = Qmin (height box * 0.6) 12 /\
    size <= 12 /\
    tx == (x (coordinates field) / 100) * pageWidth dims + 5 /\
    ty == pageHeight dims
          - ((y (coordinates field) + height (coordinates field) / 2) / 100)
            * pageHeight dims.
Proof.
  intros T V Tr _ dims box.
  destruct (drawTextIn_mark st text (coordinates field))
    as (tx & ty & size & M & rest).
  exists tx, ty, size. split; [|exact rest].
  unfold Backend.processField. rewrite T, V.
  cbn [String.eqb Ascii.eqb Bool.eqb orb]. rewrite Tr.
  now rewrite M.
Qed.

(** X4.  A date field whose text (its value when that is a non-empty
    string, the current date otherwise) is printable ASCII adds one
    text run showing that text, also when the value is empty or absent;
    position and size are those of a text field. *)
Theorem date_always_drawn (st : LoopState) (field : Field) :
  type field = "date"%string ->
  let dateValue := dateText today field in
  printableAscii dateValue = true ->
  let box :=
    transformCoordinatesToPDF (coordinates field) (getSize (firstPage st)) in
  exists tx ty size,
    processField st field = Done (draw st (DrawText dateValue tx ty size)) /\
    (truthy (value field) = true -> value field = Some dateValue) /\
    (truthy (value field) = false -> dateValue = today) /\
    tx = x box + 5 /\
    ty = y box + height box / 2 /\
    size = Qmin (height box * 0.6) 12.
Proof.
  intros T dateValue _ box.
  destruct (drawTextIn_mark st dateValue (coordinates field))
    as (tx & ty & size & M & X & Y & S & _).
  exists tx, ty, size. split; [|split; [|split]].
  - unfold Backend.processField. rewrite T.
    cbn [String.eqb Ascii.eqb Bool.eqb orb].
    fold (dateText today field). fold dateValue. now rewrite M.
  - unfold dateValue, dateText. destruct (value field) as [v|]; [|discriminate].
    intro Tr. now rewrite Tr.
  - unfold dateValue, dateText. destruct (value field) as [v|]; [|reflexivity].
    intro Tr. now rewrite Tr.
  - split; [exact X|]. split; [exact Y | exact S].
Qed.

(** X5.  A checked radio field adds one filled circle whose centre is
    the centre of the field's box and whose radius is a third of the
    shorter side of the box.  For a field placed in range on a valid
    page the disc lies inside the box and inside the page. *)
Theorem radio_circle_inside_box (st : LoopState) (field : Field) :
  type field = "radio"%string -> checked field = true ->
  let box :=
    transformCoordinatesToPDF (coordinates field) (getSize (firstPage st)) in
  exists cx cy radius,
    processField st field = Done (draw st (DrawCircle cx cy radius)) /\
    cx = x box + width box / 2 /\
    cy = y box + height box / 2 /\
    radius = Qmin (width box) (height box) / 3 /\
    (inRange (coordinates field) -> validPage (getSize (firstPage st)) ->
     0 < radius /\
     discInside cx cy radius box /\
     discInside cx cy radius (pageRect (getSize (firstPage st)))).
Proof.
  intros T C box.
  do 3 eexists. split; [|split; [|split; [|split]]];
    [ | reflexivity | reflexivity | reflexivity | ].
  - unfold Backend.processField. rewrite T, C.
    cbn [String.eqb Ascii.eqb Bool.eqb orb]. fold box. reflexivity.
  - intros R Pg.
    pose proof (transform_bounds _ _ R Pg) as (Bx & By & Bxw & Byh & Bw & Bh).
    fold box in Bx, By, Bxw, Byh, Bw, Bh.
    unfold discInside, pageRect. cbn [x y width height].
    pose proof (Q.le_min_l (width box) (height box)) as Ml.
    pose proof (Q.le_min_r (width box) (height box)) as Mr.
    assert (M0 : 0 < Qmin (width box) (height box))
      by (destruct (Q.min_spec (width box) (height box)) as [[? E]|[? E]];
          rewrite E; lra).
    set (m := Qmin (width box) (height box)) in *. clearbody m.
    repeat split; qlra.
Qed.

End Drawing.

Lemma inRange_scenarioPlacement : inRange scenarioPlacement.
Proof.
  unfold inRange, scenarioPlacement; cbn [x y width height].
  repeat split; try discriminate; reflexivity.
Defined.

Lemma validPage_usLetter : validPage usLetter.
Proof. split; reflexivity. Defined.

Lemma image_drawn_centred_witness :
  exists options,
    processField sampleEmbed sampleEmbed "11/1/2026" blankState validSignature
    = Done (draw blankState
              (DrawImage {| imageBytes := "iVBORw0KGgo=";
                            imgWidth := 300; imgHeight := 100 |} options)) /\
    width options / height options == 300 / 100.
Proof.
  destruct (image_drawn_centred sampleEmbed sampleEmbed "11/1/2026"
              blankState validSignature
              "data:image/png;base64,iVBORw0KGgo=" "iVBORw0KGgo="
              {| imageBytes := "iVBORw0KGgo=";
                 imgWidth := 300; imgHeight := 100 |}
              eq_refl eq_refl eq_refl eq_refl eq_refl eq_refl
              inRange_scenarioPlacement validPage_usLetter)
    as (options & E & R & _).
  exists options. split; [exact E | exact R].
Defined.

Lemma text_drawn_at_mid_height_witness :
  exists tx ty size,
    processField sampleEmbed sampleEmbed "11/1/2026" blankState validText
    = Done (draw blankState (DrawText "Jane Doe" tx ty size)) /\
    size <= 12.
Proof.
  destruct (text_drawn_at_mid_height sampleEmbed sampleEmbed "11/1/2026"
              blankState validText "Jane Doe"
              eq_refl eq_refl eq_refl eq_refl)
    as (tx & ty & size & E & _ & _ & _ & Cap & _).
  exists tx, ty, size. split; [exact E | exact Cap].
Defined.

Lemma date_always_drawn_witness :
  exists tx ty size,
    processField sampleEmbed sampleEmbed "11/1/2026" blankState unfilledDate
    = Done (draw blankState (DrawText "11/1/2026" tx ty size)).
Proof.
  destruct (date_always_drawn sampleEmbed sampleEmbed "11/1/2026"
              blankState unfilledDate eq_refl eq_refl)
    as (tx & ty & size & E & _).
  exists tx, ty, size. exact E.
Defined.

Lemma radio_circle_inside_box_witness :
  exists cx cy radius,
    processField sampleEmbed sampleEmbed "11/1/2026" blankState checkedRadio
    = Done (draw blankState (DrawCircle cx cy radius)) /\
    discInside cx cy radius (pageRect usLetter).
Proof.
  assert (R : inRange (coordinates checkedRadio)).
  { unfold inRange, checkedRadio; cbn [coordinates x y width height].
    repeat split; try discriminate; reflexivity. }
  destruct (radio_circle_inside_box sampleEmbed sampleEmbed "11/1/2026"
              blankState checkedRadio eq_refl eq_refl)
    as (cx & cy & radius & E & _ & _ & _ & G).
  exists cx, cy, radius. split; [exact E|].
  exact (proj2 (proj2 (G R validPage_usLetter))).
Defined.

(** ** The field loop as a whole *)

(** A text starts with a comma exactly when its first character is
    one. *)
Lemma prefix_comma (c : ascii) (rest : string) :
  prefix "," (String c rest) = Ascii.eqb c ","%char.
Proof.
  cbn [prefix]. destruct (ascii_dec ","%char c) as [E|N].
  - subst c. rewrite Ascii.eqb_refl. now destruct rest.
  - symmetry. apply Ascii.eqb_neq. congruence.
Qed.

(** [splitComma1] finds no payload exactly when the text has no
    comma. *)
Lemma splitComma1_None_iff (s : string) :
  splitComma1 s = None <-> includes s "," = false.
Proof.
  induction s as [|c rest IH].
  - split; reflexivity.
  - cbn [splitComma1 includes]. rewrite prefix_comma.
    destruct (Ascii.eqb c ","%char); cbn [orb].
    + split; discriminate.
    + exact IH.
Qed.

Section Loop.

Variables (embedPng embedJpg : string -> option EmbeddedImage).
Variable today : string.

Local Abbreviation processField := (processField embedPng embedJpg today).
Local Abbreviation processFields := (processFields embedPng embedJpg today).
Local Abbreviation signPdf := (signPdf embedPng embedJpg today).

(** One iteration keeps the page size, appends at most one mark or one
    error line, and removes nothing. *)
Lemma processField_appends (st st' : LoopState) (field : Field) :
  processField st field = Done st' ->
  exists added lines,
    firstPage st' = {| getSize := getSize (firstPage st);
                       marks := marks (firstPage st) ++ added |} /\
    errorLog st' = errorLog st ++ lines /\
    (length added + length lines <= 1)%nat.
Proof.
  assert (Same : exists added lines,
    firstPage st = {| getSize := getSize (firstPage st);
                      marks := marks (firstPage st) ++ added |} /\
    errorLog st = errorLog st ++ lines /\
    (length added + length lines <= 1)%nat).
  { exists [], []. rewrite !app_nil_r. destruct (firstPage st).
    repeat split. simpl. apply Nat.le_0_l. }
  assert (Drawn : forall m, exists added lines,
    firstPage (draw st m)
    = {| getSize := getSize (firstPage st);
         marks := marks (firstPage st) ++ added |} /\
    errorLog (draw st m) = errorLog st ++ lines /\
    (length added + length lines <= 1)%nat).
  { intro m. exists [m], []. rewrite app_nil_r. repeat split. simpl; lia. }
  assert (Logged : exists added lines,
    firstPage (consoleError st "Image embed error:")
    = {| getSize := getSize (firstPage st);
         marks := marks (firstPage st) ++ added |} /\
    errorLog (consoleError st "Image embed error:")
    = errorLog st ++ lines /\
    (length added + length lines <= 1)%nat).
  { exists [], ["Image embed error:"%string]. rewrite app_nil_r.
    cbn [consoleError firstPage errorLog].
    destruct (firstPage st). repeat split. simpl; lia. }
  unfold Backend.processField, drawTextIn.
  repeat match goal with
  | |- context [if ?b then _ else _] => destruct b
  | |- context [match ?o with Some _ => _ | None => _ end] => destruct o
  end; intro E; inversion E; subst;
    try exact Same; try exact Logged; apply Drawn.
Qed.

Lemma processFields_appends (fields : list Field) (st st' : LoopState) :
  processFields fields st = Done st' ->
  exists added lines,
    firstPage st' = {| getSize := getSize (firstPage st);
                       marks := marks (firstPage st) ++ added |} /\
    errorLog st' = errorLog st ++ lines /\
    (length added + length lines <= length fields)%nat.
Proof.
  revert st. induction fields as [|field rest IH]; intros st E; simpl in E.
  - inversion E; subst. exists [], []. rewrite !app_nil_r.
    destruct (firstPage st'). repeat split. simpl. apply Nat.le_0_l.
  - destruct (Backend.processField embedPng embedJpg today st field)
      as [st1|] eqn:E1; [|discriminate].
    apply processField_appends in E1.
    destruct E1 as (a1 & l1 & P1 & L1 & N1).
    destruct (IH _ E) as (a2 & l2 & P2 & L2 & N2).
    exists (a1 ++ a2), (l1 ++ l2).
    rewrite P2, L2, P1, L1. cbn [getSize marks].
    rewrite <- !app_assoc. repeat split.
    rewrite !length_app. simpl. lia.
Qed.

(** X6.  A signed response differs from the uploaded document only in
    the first page, whose size is kept and whose marks are the old ones
    followed by new ones; every other page is returned as it came.  Each
    field accounts for at most one new mark or one error line. *)
Theorem signPdf_only_appends (req : Request) (signedPages : list Page)
    (log : list string) :
  signPdf req = Signed signedPages log ->
  exists page0 otherPages added,
    pages req = page0 :: otherPages /\
    signedPages = {| getSize := getSize page0;
                     marks := marks page0 ++ added |} :: otherPages /\
    (length added + length log <= length (fields req))%nat.
Proof.
  unfold Backend.signPdf.
  destruct (pages req) as [|page0 otherPages]; [discriminate|].
  destruct (Backend.processFields embedPng embedJpg today (fields req) _)
    as [st|] eqn:E; [|discriminate].
  intro S. inversion S; subst.
  apply processFields_appends in E.
  destruct E as (added & lines & P & L & N).
  cbn [firstPage errorLog] in P, L.
  exists page0, otherPages, added. rewrite P, L. cbn [app].
  repeat split. exact N.
Qed.

(** In this model of the loop body, an iteration throws exactly for a
    signature or image field whose data URL is a non-empty text without
    a comma. *)
Lemma processField_Thrown_iff (st : LoopState) (field : Field)
    (message : string) :
  processField st field = Thrown message <->
  missingPayload field = true /\ message = "TypeError"%string.
Proof.
  unfold Backend.processField, missingPayload, isImageField, drawTextIn.
  destruct (String.eqb (type field) "signature" ||
            String.eqb (type field) "image").
  - destruct (imageData field) as [dataUrl|].
    + destruct (truthy (Some dataUrl)).
      * destruct (splitComma1 dataUrl) as [payload|] eqn:S.
        -- assert (I : includes dataUrl "," = true).
           { destruct (includes dataUrl ",") eqn:I; [reflexivity|].
             apply splitComma1_None_iff in I. congruence. }
           rewrite I. cbn [negb andb].
           destruct (if includes dataUrl "image/png"
                     then embedPng payload else embedJpg payload);
             split; [discriminate | intros [? ?]; discriminate
                    | discriminate | intros [? ?]; discriminate].
        -- apply splitComma1_None_iff in S. rewrite S. cbn [negb andb].
           split; [intro E; inversion E; now split
                  | intros [_ ->]; reflexivity].
      * cbn [andb]. split; [discriminate | intros [? ?]; discriminate].
    + cbn [andb]. split; [discriminate | intros [? ?]; discriminate].
  - cbn [andb].
    repeat match goal with
    | |- context [if ?b then _ else _] => destruct b
    | |- context [match ?o with Some _ => _ | None => _ end] => destruct o
    end; split; try discriminate; intros [? ?]; discriminate.
Qed.

Lemma processFields_Thrown_iff (fields : list Field) (st : LoopState) :
  (exists message, processFields fields st = Thrown message) <->
  existsb missingPayload fields = true.
Proof.
  revert st. induction fields as [|field rest IH]; intro st; simpl.
  - split; [intros [m E]; discriminate | discriminate].
  - destruct (Backend.processField embedPng embedJpg today st field)
      as [st1|m] eqn:E.
    + assert (M : missingPayload field = false).
      { destruct (missingPayload field) eqn:M; [|reflexivity].
        assert (T : Backend.processField embedPng embedJpg today st field
                    = Thrown "TypeError")
          by (apply processField_Thrown_iff; now split).
        congruence. }
      rewrite M. cbn [orb]. apply IH.
    + apply processField_Thrown_iff in E. destruct E as [M _].
      rewrite M. cbn [orb]. split; [reflexivity | intros _; now exists m].
Qed.

(** A field that reaches no drawing call leaves the state as it is. *)
Lemma processField_drawsNothing (st : LoopState) (field : Field) :
  drawsNothing field = true -> processField st field = Done st.
Proof.
  unfold drawsNothing, Backend.processField, isImageField.
  destruct (String.eqb (type field) "signature" ||
            String.eqb (type field) "image").
  - destruct (imageData field) as [dataUrl|]; [|reflexivity].
    destruct (truthy (Some dataUrl)); [discriminate | reflexivity].
  - destruct (String.eqb (type field) "text").
    + destruct (value field) as [text|]; [|reflexivity].
      destruct (truthy (Some text)); [discriminate | reflexivity].
    + destruct (String.eqb (type field) "date"); [discriminate|].
      destruct (String.eqb (type field) "radio"); [|reflexivity].
      destruct (checked field); [discriminate | reflexivity].
Qed.

(** X8.  Removing from a request every field that reaches no drawing
    call (image or signature without image data, text without value,
    unchecked radio, unknown tag) does not change the response. *)
Theorem signPdf_without_idle_fields (req : Request) :
  signPdf {| fields := filter (fun f => negb (drawsNothing f)) (fields req);
             pdfDimensions := pdfDimensions req;
             pages := pages req |}
  = signPdf req.
Proof.
  unfold Backend.signPdf. cbn [pages fields].
  destruct (pages req) as [|page0 otherPages]; [reflexivity|].
  assert (E : forall st,
    processFields (filter (fun f => negb (drawsNothing f)) (fields req)) st
    = processFields (fields req) st).
  { induction (fields req) as [|field rest IH]; intro st; [reflexivity|].
    cbn [filter]. destruct (drawsNothing field) eqn:D; cbn [negb].
    - cbn [Backend.processFields].
      rewrite (processField_drawsNothing st field D). apply IH.
    - cbn [Backend.processFields].
      destruct (Backend.processField embedPng embedJpg today st field);
        [apply IH | reflexivity]. }
  now rewrite E.
Qed.

End Loop.

Lemma signPdf_only_appends_witness :
  exists added,
    signPdf sampleEmbed sampleEmbed "11/1/2026"
      (requestOf [corruptSignature; validText] None)
    = Signed [ {| getSize := usLetter; marks := [] ++ added |} ]
             ["Image embed error:"%string] /\
    (length added + 1 <= 2)%nat.
Proof.
  destruct (signPdf_only_appends sampleEmbed sampleEmbed "11/1/2026"
              (requestOf [corruptSignature; validText] None) _ _ eq_refl)
    as (page0 & otherPages & added & P & S & N).
  inversion P; subst page0 otherPages.
  exists added. split; [|exact N].
  inversion S as [A]. reflexivity.
Defined.

(** ** From the editing surface to the page *)

Section Surface.

Variables (scale pageW pageH : Q).

Local Abbreviation toPercent :=
  (pixelToPercentage scale pageW pageH).
Local Abbreviation toPixel :=
  (percentageToPixel scale pageW pageH).

(** Pixels to percent and back. *)
Lemma toPixel_toPercent (pixelX pixelY pixelWidth pixelHeight : Q) :
  0 < scale -> 0 < pageW -> 0 < pageH ->
  Rect_eq (toPixel (toPercent pixelX pixelY pixelWidth pixelHeight))
          {| x := pixelX; y := pixelY;
             width := pixelWidth; height := pixelHeight |}.
Proof.
  intros Hscale HpageW HpageH.
  unfold pixelToPercentage, percentageToPixel, Rect_eq.
  cbn [x y width height].
  repeat split; field; repeat split; lra.
Qed.

(** X9.  Percent to pixels and back: converting a stored placement to
    pixels at the current scale, as every drag and resize does at mouse
    down, and converting the result to percent again gives the
    placement back. *)
Theorem percent_pixel_roundtrip (field : Rect) :
  0 < scale -> 0 < pageW -> 0 < pageH ->
  let px := toPixel field in
  Rect_eq (toPercent (x px) (y px) (width px) (height px)) field.
Proof.
  intros Hscale HpageW HpageH px. subst px.
  unfold pixelToPercentage, percentageToPixel, Rect_eq.
  cbn [x y width height].
  repeat split; field; repeat split; lra.
Qed.

(** X10.  End to end: a rectangle drawn on the editing surface, stored
    as percent and transformed by the backend for a page of the size
    the editor displays, lands at the pixel position divided by the
    scale, its top edge as far below the top of the page as on the
    screen. *)
Theorem pixel_to_points (pixelX pixelY pixelWidth pixelHeight : Q) :
  0 < scale -> 0 < pageW -> 0 < pageH ->
  let box :=
    transformCoordinatesToPDF
      (toPercent pixelX pixelY pixelWidth pixelHeight)
      (mkPageDimensions pageW pageH) in
  x box == pixelX / scale /\
  width box == pixelWidth / scale /\
  height box == pixelHeight / scale /\
  y box + height box == pageH - pixelY / scale /\
  y box == pageH - (pixelY + pixelHeight) / scale.
Proof.
  intros Hscale HpageW HpageH box. subst box.
  unfold pixelToPercentage, transformCoordinatesToPDF.
  cbn [x y width height pageWidth pageHeight].
  repeat split; field; repeat split; lra.
Qed.

End Surface.

(** X11.  When the viewport changes from one scale to another, a
    rectangle stored as percent at the first scale is shown at the
    second with every pixel quantity multiplied by the ratio of the
    scales: it stays anchored to the page content. *)
Theorem viewport_change
    (scale1 scale2 pageW pageH pixelX pixelY pixelWidth pixelHeight : Q) :
  0 < scale1 -> 0 < pageW -> 0 < pageH ->
  Rect_eq
    (percentageToPixel scale2 pageW pageH
       (pixelToPercentage scale1 pageW pageH
          pixelX pixelY pixelWidth pixelHeight))
    {| x := pixelX * (scale2 / scale1);
       y := pixelY * (scale2 / scale1);
       width := pixelWidth * (scale2 / scale1);
       height := pixelHeight * (scale2 / scale1) |}.
Proof.
  intros H1 HW HH.
  unfold pixelToPercentage, percentageToPixel, Rect_eq.
  cbn [x y width height].
  repeat split; field; repeat split; lra.
Qed.

Lemma viewport_change_witness :
  Rect_eq
    (percentageToPixel (scale_of 400 612) 612 792
       (pixelToPercentage (scale_of 800 612) 612 792 80 160 150 50))
    {| x := 40; y := 80; width := 75; height := 25 |}.
Proof.
  pose proof (viewport_change (scale_of 800 612) (scale_of 400 612)
                612 792 80 160 150 50 eq_refl eq_refl eq_refl)
    as (A & B & C & D).
  unfold Rect_eq.
  split; [rewrite A; reflexivity|].
  split; [rewrite B; reflexivity|].
  split; [rewrite C; reflexivity | rewrite D; reflexivity].
Defined.

Lemma percent_pixel_roundtrip_witness :
  let px := percentageToPixel (scale_of 800 612) 612 792 scenarioPlacement in
  Rect_eq (pixelToPercentage (scale_of 800 612) 612 792
             (x px) (y px) (width px) (height px))
          scenarioPlacement.
Proof.
  exact (percent_pixel_roundtrip (scale_of 800 612) 612 792
           scenarioPlacement eq_refl eq_refl eq_refl).
Defined.

Lemma pixel_to_points_witness :
  let box :=
    transformCoordinatesToPDF
      (pixelToPercentage (scale_of 800 612) 612 792 80 160 150 50)
      usLetter in
  x box == 80 / scale_of 800 612 /\
  y box + height box == 792 - 160 / scale_of 800 612.
Proof.
  destruct (pixel_to_points (scale_of 800 612) 612 792 80 160 150 50
              eq_refl eq_refl eq_refl) as (A & _ & _ & B & _).
  split; [exact A | exact B].
Defined.

(** ** The editor's field list *)

Section EditorFacts.

Variables (scale pageW pageH : Q).

Local Abbreviation dragField := (Editor.dragField scale pageW pageH).
Local Abbreviation dragMove := (Editor.dragMove scale pageW pageH).
Local Abbreviation toPixel := (percentageToPixel scale pageW pageH).

(** X12.  For a positive scale and page size, a drag puts the dragged
    field in range whatever the mouse displacement: a field whose width
    and height are positive and at most 100 percent ends up with
    [0 <= x], [x + width <= 100], [0 <= y], [y + height <= 100], its
    size unchanged. *)
Theorem dragField_in_range (pixelCoords : Rect) (deltaX deltaY : Q)
    (f : Editor.Field) :
  0 < scale -> 0 < pageW -> 0 < pageH ->
  0 < width (Editor.placement f) -> width (Editor.placement f) <= 100 ->
  0 < height (Editor.placement f) -> height (Editor.placement f) <= 100 ->
  let f' := dragField pixelCoords deltaX deltaY f in
  inRange (Editor.placement f') /\
  width (Editor.placement f') = width (Editor.placement f) /\
  height (Editor.placement f') = height (Editor.placement f).
Proof.
  intros _ _ _ W0 W100 H0 H100 f'. subst f'.
  unfold Editor.dragField, Editor.withPlacement, inRange.
  cbn [Editor.placement x y width height].
  set (nx := x (pixelToPercentage _ _ _ _ _ _ _)).
  set (ny := y (pixelToPercentage _ _ _ _ _ _ _)).
  clearbody nx ny.
  pose proof (Q.le_max_l 0 (Qmin (100 - width (Editor.placement f)) nx)).
  pose proof (Q.le_max_l 0 (Qmin (100 - height (Editor.placement f)) ny)).
  pose proof (Q.le_min_l (100 - width (Editor.placement f)) nx).
  pose proof (Q.le_min_l (100 - height (Editor.placement f)) ny).
  assert (Qmax 0 (Qmin (100 - width (Editor.placement f)) nx)
          <= 100 - width (Editor.placement f))
    by (apply Q.max_lub; lra).
  assert (Qmax 0 (Qmin (100 - height (Editor.placement f)) ny)
          <= 100 - height (Editor.placement f))
    by (apply Q.max_lub; lra).
  repeat split; try lra.
Qed.

(** X13.  While the target stays on the page, the dragged field
    follows the mouse exactly: shown again at the same scale, it is the
    rectangle captured at mouse down moved by the displacement. *)
Theorem dragField_follows_mouse (deltaX deltaY : Q) (f : Editor.Field) :
  0 < scale -> 0 < pageW -> 0 < pageH ->
  let pixelCoords := toPixel (Editor.placement f) in
  0 <= x pixelCoords + deltaX ->
  x pixelCoords + deltaX + width pixelCoords <= pageW * scale ->
  0 <= y pixelCoords + deltaY ->
  y pixelCoords + deltaY + height pixelCoords <= pageH * scale ->
  Rect_eq
    (toPixel (Editor.placement (dragField pixelCoords deltaX deltaY f)))
    {| x := x pixelCoords + deltaX; y := y pixelCoords + deltaY;
       width := width pixelCoords; height := height pixelCoords |}.
Proof.
  intros Hs HW HH pixelCoords X0 X1 Y0 Y1.
  pose proof (toPixel_toPercent scale pageW pageH
                (x pixelCoords + deltaX) (y pixelCoords + deltaY)
                (width pixelCoords) (height pixelCoords) Hs HW HH)
    as (RX & RY & _ & _).
  unfold Editor.dragField, Editor.withPlacement.
  cbn [Editor.placement].
  set (np := pixelToPercentage scale pageW pageH
               (x pixelCoords + deltaX) (y pixelCoords + deltaY)
               (width pixelCoords) (height pixelCoords)) in *.
  assert (NX0 : 0 <= x np).
  { unfold np, pixelToPercentage; cbn [x].
    apply Qmult_le_0_compat; [|lra].
    apply Qle_shift_div_l; [lra|]. rewrite Qmult_0_l.
    apply Qle_shift_div_l; lra. }
  assert (NY0 : 0 <= y np).
  { unfold np, pixelToPercentage; cbn [y].
    apply Qmult_le_0_compat; [|lra].
    apply Qle_shift_div_l; [lra|]. rewrite Qmult_0_l.
    apply Qle_shift_div_l; lra. }
  assert (NX1 : x np <= 100 - width (Editor.placement f)).
  { assert (E : 100 - width (Editor.placement f) - x np
                == (pageW * scale
                    - (x pixelCoords + deltaX + width pixelCoords))
                   / scale / pageW * 100).
    { unfold np, pixelCoords, pixelToPercentage, percentageToPixel.
      cbn [x y width height]. field. split; lra. }
    assert (0 <= (pageW * scale
                  - (x pixelCoords + deltaX + width pixelCoords))
                 / scale / pageW * 100).
    { apply Qmult_le_0_compat; [|lra].
      apply Qle_shift_div_l; [lra|]. rewrite Qmult_0_l.
      apply Qle_shift_div_l; lra. }
    lra. }
  assert (NY1 : y np <= 100 - height (Editor.placement f)).
  { assert (E : 100 - height (Editor.placement f) - y np
                == (pageH * scale
                    - (y pixelCoords + deltaY + height pixelCoords))
                   / scale / pageH * 100).
    { unfold np, pixelCoords, pixelToPercentage, percentageToPixel.
      cbn [x y width height]. field. split; lra. }
    assert (0 <= (pageH * scale
                  - (y pixelCoords + deltaY + height pixelCoords))
                 / scale / pageH * 100).
    { apply Qmult_le_0_compat; [|lra].
      apply Qle_shift_div_l; [lra|]. rewrite Qmult_0_l.
      apply Qle_shift_div_l; lra. }
    lra. }
  assert (EX : Qmax 0 (Qmin (100 - width (Editor.placement f)) (x np))
               == x np).
  { destruct (Q.min_spec (100 - width (Editor.placement f)) (x np))
      as [[? M] | [? M]];
    destruct (Q.max_spec 0 (Qmin (100 - width (Editor.placement f)) (x np)))
      as [[? N] | [? N]]; lra. }
  assert (EY : Qmax 0 (Qmin (100 - height (Editor.placement f)) (y np))
               == y np).
  { destruct (Q.min_spec (100 - height (Editor.placement f)) (y np))
      as [[? M] | [? M]];
    destruct (Q.max_spec 0 (Qmin (100 - height (Editor.placement f)) (y np)))
      as [[? N] | [? N]]; lra. }
  unfold percentageToPixel in RX, RY. cbn [x y] in RX, RY.
  unfold Rect_eq, percentageToPixel. cbn [x y width height].
  rewrite EX, EY.
  split; [exact RX|]. split; [exact RY|].
  unfold pixelCoords, percentageToPixel. cbn [width height].
  split; reflexivity.
Qed.



(** X15.  The rectangle a resize computes is never narrower than 50
    pixels nor lower than 30.  Handles on the east and south sides keep
    the left and top edges; a handle on the west (north) side keeps the
    right (bottom) edge while the width (height) stays above the
    minimum, and once the minimum is reached the whole box moves on
    with the mouse. *)
Theorem resizedPixels_geometry (pixelCoords : Rect) (corner : string)
    (deltaX deltaY : Q) :
  let r := Editor.resizedPixels pixelCoords corner deltaX deltaY in
  (includes corner "e" = true \/ includes corner "w" = true ->
   50 <= width r) /\
  (includes corner "s" = true \/ includes corner "n" = true ->
   30 <= height r) /\
  (includes corner "w" = false -> x r = x pixelCoords) /\
  (includes corner "n" = false -> y r = y pixelCoords) /\
  (includes corner "w" = true -> 50 <= width pixelCoords - deltaX ->
   x r + width r == x pixelCoords + width pixelCoords) /\
  (includes corner "n" = true -> 30 <= height pixelCoords - deltaY ->
   y r + height r == y pixelCoords + height pixelCoords) /\
  (includes corner "w" = true -> width pixelCoords - deltaX < 50 ->
   x r == x pixelCoords + deltaX /\ width r == 50) /\
  (includes corner "n" = true -> height pixelCoords - deltaY < 30 ->
   y r == y pixelCoords + deltaY /\ height r == 30).
Proof.
  intro r. subst r. unfold Editor.resizedPixels.
  pose proof (Q.le_max_l 50 (width pixelCoords + deltaX)).
  pose proof (Q.le_max_l 50 (width pixelCoords - deltaX)).
  pose proof (Q.le_max_l 30 (height pixelCoords + deltaY)).
  pose proof (Q.le_max_l 30 (height pixelCoords - deltaY)).
  destruct (Q.max_spec 50 (width pixelCoords - deltaX)) as [[? MW]|[? MW]];
  destruct (Q.max_spec 30 (height pixelCoords - deltaY)) as [[? MH]|[? MH]];
  destruct (includes corner "e"), (includes corner "s"),
           (includes corner "w"), (includes corner "n");
  cbn [x y width height];
  (split; [intros [?|?]; try discriminate; assumption|]);
  (split; [intros [?|?]; try discriminate; assumption|]);
  (split; [intro; try discriminate; reflexivity|]);
  (split; [intro; try discriminate; reflexivity|]);
  (split; [intros ? ?; try discriminate; lra|]);
  (split; [intros ? ?; try discriminate; lra|]);
  (split; intros ? ?; try discriminate; split; lra).
Qed.

(** Mapping a function that only changes the fields with a given id
    keeps every id, and every field with another id where it is. *)
Lemma map_on_id_frame (g : Editor.Field -> Editor.Field) (fieldId : nat)
    (fields : list Editor.Field) :
  (forall f, Editor.id (g f) = Editor.id f) ->
  let fields' :=
    map (fun f => if Nat.eqb (Editor.id f) fieldId then g f else f) fields in
  map Editor.id fields' = map Editor.id fields /\
  (forall i f, nth_error fields i = Some f -> Editor.id f <> fieldId ->
               nth_error fields' i = Some f) /\
  (forall i f, nth_error fields i = Some f -> Editor.id f = fieldId ->
               nth_error fields' i = Some (g f)).
Proof.
  intros Hg fields'. subst fields'. split; [|split].
  - rewrite map_map. apply map_ext. intro f.
    destruct (Nat.eqb (Editor.id f) fieldId); [apply Hg | reflexivity].
  - intros i f N D. rewrite nth_error_map, N. cbn [option_map].
    apply Nat.eqb_neq in D. now rewrite D.
  - intros i f N D. rewrite nth_error_map, N. cbn [option_map].
    apply Nat.eqb_eq in D. now rewrite D.
Qed.

(** X16.  Dragging, resizing and updating a value keep the number, the
    order and the ids of the fields, and leave every field with another
    id than the addressed one exactly as it was. *)
Theorem edits_touch_only_their_field (fieldId : nat)
    (fields : list Editor.Field) (pixelCoords : Rect) (corner : string)
    (deltaX deltaY : Q) (u : Editor.Update) :
  let untouchedElsewhere := fun fields' : list Editor.Field =>
    map Editor.id fields' = map Editor.id fields /\
    forall i f, nth_error fields i = Some f -> Editor.id f <> fieldId ->
                nth_error fields' i = Some f in
  untouchedElsewhere (dragMove pixelCoords fieldId deltaX deltaY fields) /\
  untouchedElsewhere
    (Editor.resizeMove scale pageW pageH pixelCoords fieldId corner
       deltaX deltaY fields) /\
  untouchedElsewhere (Editor.updateFieldValue fields fieldId u).
Proof.
  intro untouchedElsewhere. subst untouchedElsewhere. cbv beta.
  split; [|split].
  - destruct (map_on_id_frame
                (Editor.dragField scale pageW pageH pixelCoords deltaX deltaY)
                fieldId fields) as (A & B & _); [reflexivity|].
    split; [exact A | exact B].
  - unfold Editor.resizeMove.
    match goal with
    | |- context [Editor.withPlacement _ ?np] =>
        destruct (map_on_id_frame (fun f => Editor.withPlacement f np)
                    fieldId fields) as (A & B & _); [reflexivity|]
    end.
    split; [exact A | exact B].
  - destruct (map_on_id_frame (fun f => Editor.applyUpdate f u)
                fieldId fields) as (A & B & _).
    + intro f. now destruct u.
    + split; [exact A | exact B].
Qed.

(** X17.  After a resize, the addressed field, shown again at the same
    scale, is exactly the rectangle the resize computed in pixels. *)
Theorem resizeMove_shows_resized (pixelCoords : Rect) (fieldId : nat)
    (corner : string) (deltaX deltaY : Q) (prevFields : list Editor.Field)
    (i : nat) (f : Editor.Field) :
  0 < scale -> 0 < pageW -> 0 < pageH ->
  nth_error prevFields i = Some f -> Editor.id f = fieldId ->
  exists f',
    nth_error (Editor.resizeMove scale pageW pageH pixelCoords fieldId
                 corner deltaX deltaY prevFields) i = Some f' /\
    Editor.id f' = fieldId /\
    Rect_eq (toPixel (Editor.placement f'))
            (Editor.resizedPixels pixelCoords corner deltaX deltaY).
Proof.
  intros Hs HW HH N D. unfold Editor.resizeMove.
  match goal with
  | |- context [Editor.withPlacement _ ?np] =>
      destruct (map_on_id_frame (fun f => Editor.withPlacement f np)
                  fieldId prevFields) as (_ & _ & C); [reflexivity|];
      exists (Editor.withPlacement f np)
  end.
  split; [exact (C i f N D)|]. split; [exact D|].
  cbn [Editor.withPlacement Editor.placement].
  pose proof (toPixel_toPercent scale pageW pageH
    (x (Editor.resizedPixels pixelCoords corner deltaX deltaY))
    (y (Editor.resizedPixels pixelCoords corner deltaX deltaY))
    (width (Editor.resizedPixels pixelCoords corner deltaX deltaY))
    (height (Editor.resizedPixels pixelCoords corner deltaX deltaY))
    Hs HW HH) as R.
  destruct (Editor.resizedPixels pixelCoords corner deltaX deltaY).
  exact R.
Qed.

End EditorFacts.

(** X18.  Looking a field up after an update gives the updated field
    when the id is the updated one and the old field otherwise; an id
    that no field has makes the update a no-op. *)
Theorem findField_updateFieldValue (fields : list Editor.Field)
    (fieldId other : nat) (u : Editor.Update) :
  Editor.findField (Editor.updateFieldValue fields fieldId u) fieldId
  = option_map (fun f => Editor.applyUpdate f u)
               (Editor.findField fields fieldId) /\
  (other <> fieldId ->
   Editor.findField (Editor.updateFieldValue fields fieldId u) other
   = Editor.findField fields other) /\
  (Editor.findField fields fieldId = None ->
   Editor.updateFieldValue fields fieldId u = fields).
Proof.
  unfold Editor.findField, Editor.updateFieldValue.
  assert (I : forall f, Editor.id (Editor.applyUpdate f u) = Editor.id f)
    by (intro f; now destruct u).
  split; [|split].
  - induction fields as [|f rest IH]; [reflexivity|]. cbn [map find].
    destruct (Nat.eqb (Editor.id f) fieldId) eqn:E.
    + rewrite I, E. reflexivity.
    + rewrite E. exact IH.
  - intro D. induction fields as [|f rest IH]; [reflexivity|]. cbn [map find].
    destruct (Nat.eqb (Editor.id f) fieldId) eqn:E.
    + rewrite I. apply Nat.eqb_eq in E.
      assert (N : Nat.eqb (Editor.id f) other = false)
        by (apply Nat.eqb_neq; congruence).
      rewrite N. exact IH.
    + destruct (Nat.eqb (Editor.id f) other); [reflexivity | exact IH].
  - induction fields as [|f rest IH]; [reflexivity|]. cbn [map find].
    destruct (Nat.eqb (Editor.id f) fieldId); [discriminate|].
    intro N. now rewrite (IH N).
Qed.

(** X19.  After [deleteField] no field has the deleted id, every other
    id is looked up as before, and the remaining fields keep their
    order. *)
Theorem findField_deleteField (fields : list Editor.Field)
    (fieldId other : nat) :
  Editor.findField (Editor.deleteField fields fieldId) fieldId = None /\
  (forall f, In f (Editor.deleteField fields fieldId) ->
             Editor.id f <> fieldId) /\
  (other <> fieldId ->
   Editor.findField (Editor.deleteField fields fieldId) other
   = Editor.findField fields other) /\
  (length (Editor.deleteField fields fieldId) <= length fields)%nat.
Proof.
  unfold Editor.findField, Editor.deleteField.
  split; [|split; [|split]].
  - induction fields as [|f rest IH]; [reflexivity|]. cbn [filter].
    destruct (Nat.eqb (Editor.id f) fieldId) eqn:E; cbn [negb]; [exact IH|].
    cbn [find]. now rewrite E.
  - intros f F. apply filter_In in F. destruct F as [_ F].
    apply negb_true_iff in F. now apply Nat.eqb_neq.
  - intro D. induction fields as [|f rest IH]; [reflexivity|]. cbn [filter].
    destruct (Nat.eqb (Editor.id f) fieldId) eqn:E; cbn [negb find].
    + apply Nat.eqb_eq in E.
      assert (N : Nat.eqb (Editor.id f) other = false)
        by (apply Nat.eqb_neq; congruence).
      now rewrite N.
    + destruct (Nat.eqb (Editor.id f) other); [reflexivity | exact IH].
  - apply filter_length_le.
Qed.

Lemma dragField_in_range_witness :
  inRange
    (Editor.placement
       (Editor.dragField (scale_of 800 612) 612 792
          (percentageToPixel (scale_of 800 612) 612 792 scenarioPlacement)
          5000 (-5000) sampleEditorField)).
Proof.
  apply (dragField_in_range (scale_of 800 612) 612 792);
    try reflexivity; discriminate.
Defined.

Lemma dragField_follows_mouse_witness :
  let pixelCoords :=
    percentageToPixel (scale_of 800 612) 612 792 scenarioPlacement in
  Rect_eq
    (percentageToPixel (scale_of 800 612) 612 792
       (Editor.placement
          (Editor.dragField (scale_of 800 612) 612 792 pixelCoords
             10 (-10) sampleEditorField)))
    {| x := x pixelCoords + 10; y := y pixelCoords + -10;
       width := width pixelCoords; height := height pixelCoords |}.
Proof.
  apply (dragField_follows_mouse (scale_of 800 612) 612 792 10 (-10)
           sampleEditorField);
    try reflexivity; vm_compute; discriminate.
Defined.


Lemma resizeMove_shows_resized_witness :
  exists f',
    nth_error
      (Editor.resizeMove (scale_of 800 612) 612 792
         (percentageToPixel (scale_of 800 612) 612 792 scenarioPlacement)
         7 "nw" 500 500 [sampleEditorField]) 0 = Some f' /\
    width (percentageToPixel (scale_of 800 612) 612 792
             (Editor.placement f')) == 50.
Proof.
  destruct (resizeMove_shows_resized (scale_of 800 612) 612 792
              (percentageToPixel (scale_of 800 612) 612 792 scenarioPlacement)
              7 "nw" 500 500 [sampleEditorField] 0 sampleEditorField
              eq_refl eq_refl eq_refl eq_refl eq_refl)
    as (f' & N & _ & (_ & _ & W & _)).
  exists f'. split; [exact N|].
  rewrite W. reflexivity.
Defined.

(** ** Editor and backend together *)

Section EndToEnd.

Variables (embedPng embedJpg : string -> option EmbeddedImage).
Variable today : string.
Variables (scale pageW pageH : Q).

(** X20.  A field submitted as it was dropped, without any input, is
    drawn by the backend only if it is a date field: with any other
    type the page and the error log stay as they are. *)
Theorem dropped_field_unfilled (fields : list Editor.Field)
    (fieldType : string) (clientX clientY rectLeft rectTop : Q) (now : nat)
    (st : LoopState) :
  truthy (Some fieldType) = true ->
  fieldType <> "date"%string ->
  exists newField,
    Editor.handleDrop scale pageW pageH fields (Some fieldType)
      clientX clientY rectLeft rectTop now = fields ++ [newField] /\
    processField embedPng embedJpg today st (Editor.toRequestField newField)
    = Done st.
Proof.
  intros T D. unfold Editor.handleDrop. rewrite T.
  eexists. split; [reflexivity|].
  apply processField_drawsNothing.
  unfold drawsNothing, isImageField, Editor.toRequestField.
  cbn [type value imageData checked Editor.type Editor.value
       Editor.imageData Editor.checked truthy negb].
  destruct (String.eqb fieldType "signature" || String.eqb fieldType "image");
    [reflexivity|].
  destruct (String.eqb fieldType "text"); [reflexivity|].
  destruct (String.eqb fieldType "date") eqn:E.
  - apply String.eqb_eq in E. contradiction.
  - now destruct (String.eqb fieldType "radio").
Qed.

(** X21.  Drop a text field on an empty editor, type a non-empty
    printable ASCII text, submit, sign: the document comes back with
    one more mark on its first
    page, the text, starting 5 points right of where the box was
    dropped (pixel position divided by the scale) on the line through
    the middle of the 50 pixel high box. *)
Theorem drop_fill_sign (text : string)
    (clientX clientY rectLeft rectTop : Q) (now : nat)
    (oldMarks : list Mark) (otherPages : list Page) :
  0 < scale -> 0 < pageW -> 0 < pageH ->
  text <> EmptyString -> printableAscii text = true ->
  let dropped :=
    Editor.handleDrop scale pageW pageH [] (Some "text"%string)
      clientX clientY rectLeft rectTop now in
  let filled := Editor.updateFieldValue dropped now (Editor.SetValue text) in
  exists payload dims tx ty size,
    Editor.handleSubmit pageW pageH true filled = Some (payload, dims) /\
    signPdf embedPng embedJpg today
      {| fields := payload;
         pdfDimensions := Some dims;
         pages := {| getSize := mkPageDimensions pageW pageH;
                     marks := oldMarks |} :: otherPages |}
    = Signed ({| getSize := mkPageDimensions pageW pageH;
                 marks := oldMarks ++ [DrawText text tx ty size] |}
              :: otherPages) [] /\
    tx == (clientX - rectLeft) / scale + 5 /\
    ty == pageH - (clientY - rectTop + 25) / scale.
Proof.
  intros Hs HW HH NE _ dropped filled. subst dropped filled.
  assert (Tr : truthy (Some text) = true).
  { cbn [truthy]. destruct (String.eqb text "") eqn:E; [|reflexivity].
    apply String.eqb_eq in E. contradiction. }
  unfold Editor.handleDrop, Editor.updateFieldValue, Editor.handleSubmit.
  cbn [truthy String.eqb negb app map Editor.id Editor.applyUpdate
       Editor.type Editor.placement Editor.imageData Editor.checked
       Editor.value length Nat.eqb orb].
  rewrite Nat.eqb_refl.
  cbn [map Editor.toRequestField Editor.applyUpdate Editor.id Editor.type
       Editor.placement Editor.imageData Editor.checked Editor.value].
  do 5 eexists. split; [reflexivity|].
  unfold signPdf. cbn [pages fields processFields].
  unfold processField.
  cbn [Editor.toRequestField Editor.type Editor.value Editor.placement
       Editor.imageData Editor.checked
       type value coordinates String.eqb Ascii.eqb Bool.eqb orb].
  rewrite Tr.
  unfold drawTextIn, draw, drawOn.
  cbn [firstPage errorLog getSize marks].
  split; [reflexivity|].
  unfold transformCoordinatesToPDF, pixelToPercentage.
  cbn [coordinates x y width height pageWidth pageHeight].
  split; field; repeat split; lra.
Qed.

End EndToEnd.

Lemma dropped_field_unfilled_witness :
  exists newField,
    Editor.handleDrop (scale_of 800 612) 612 792 [] (Some "signature"%string)
      100 200 20 100 8 = [newField] /\
    processField sampleEmbed sampleEmbed "11/1/2026" blankState
      (Editor.toRequestField newField) = Done blankState.
Proof.
  destruct (dropped_field_unfilled sampleEmbed sampleEmbed "11/1/2026"
              (scale_of 800 612) 612 792 [] "signature" 100 200 20 100 8
              blankState eq_refl)
    as (newField & E & P); [discriminate|].
  exists newField. split; [exact E | exact P].
Defined.

Lemma drop_fill_sign_witness :
  exists tx ty size,
    signPdf sampleEmbed sampleEmbed "11/1/2026"
      {| fields :=
           map Editor.toRequestField
             (Editor.updateFieldValue
                (Editor.handleDrop (scale_of 800 612) 612 792 []
                   (Some "text"%string) 100 200 20 100 8)
                8 (Editor.SetValue "Jane Doe"));
         pdfDimensions := Some usLetter;
         pages := [blankPage] |}
    = Signed [ {| getSize := usLetter;
                  marks := [DrawText "Jane Doe" tx ty size] |} ] [] /\
    tx == 80 / scale_of 800 612 + 5.
Proof.
  destruct (drop_fill_sign sampleEmbed sampleEmbed "11/1/2026"
              (scale_of 800 612) 612 792 "Jane Doe" 100 200 20 100 8 [] []
              eq_refl eq_refl eq_refl)
    as (payload & dims & tx & ty & size & S & P & X & _);
    [discriminate | reflexivity |].
  exists tx, ty, size. inversion S; subst payload dims.
  split; [exact P|]. rewrite X. reflexivity.
Defined.

(** ** Digests and audit trail *)

Section ServerFacts.

Variables (embedPng embedJpg : string -> option EmbeddedImage).
Variable today : string.
Variable calculateHash : string -> string.
Variable load : string -> Outcome (list Page).
Variable save : list Page -> string.
Variable now : nat.

Local Abbreviation signPdfRoute :=
  (Server.signPdfRoute embedPng embedJpg today calculateHash load save now).

(** A hash that some record carries is found. *)
Lemma findOne_finds (db : list Server.Signature) (hash : string) :
  (exists record, In record db /\
     (Server.originalHash record = hash \/
      Server.signedHash record = hash)) ->
  exists found, Server.findOne db hash = Some found.
Proof.
  intros (record & I & M). unfold Server.findOne.
  destruct (find _ db) as [found|] eqn:F; [now exists found|].
  apply (find_none _ _ F) in I. apply orb_false_iff in I.
  destruct I as [A B]. apply String.eqb_neq in A, B.
  destruct M; contradiction.
Qed.

(** X22.  When [/sign-pdf] answers with the signed document, the two
    digest headers are the digests of the uploaded and of the returned
    bytes, exactly one audit record carrying them, the file name and
    the number of submitted fields has been appended, and
    [/verify-hash] then finds a record for either digest. *)
Theorem sign_then_verify (db db' : list Server.Signature)
    (fields : list Field) (pdfDimensions : option PageDimensions)
    (file : Server.Upload) (dbUp : bool)
    (body xOriginalHash xSignedHash : string) :
  signPdfRoute db dbUp (Done (fields, pdfDimensions)) file
  = (Server.SignedPdf body xOriginalHash xSignedHash, db') ->
  xOriginalHash = calculateHash (Server.buffer file) /\
  xSignedHash = calculateHash body /\
  db' = db ++ [ {| Server.originalHash := xOriginalHash;
                   Server.signedHash := xSignedHash;
                   Server.timestamp := now;
                   Server.metadata :=
                     {| Server.originalFilename := Server.originalname file;
                        Server.fieldsApplied := length fields |} |} ] /\
  (exists record, Server.verifyHashRoute db' true xOriginalHash
                  = Server.Found record) /\
  (exists record, Server.verifyHashRoute db' true xSignedHash
                  = Server.Found record).
Proof.
  unfold Server.signPdfRoute.
  destruct (load (Server.buffer file)) as [pages|]; [|discriminate].
  destruct (signPdf embedPng embedJpg today _) as [signedPages log|];
    [|discriminate].
  destruct dbUp; [|discriminate].
  intro E. inversion E; subst. clear E.
  split; [reflexivity|]. split; [reflexivity|]. split; [reflexivity|].
  unfold Server.verifyHashRoute.
  set (record := {| Server.originalHash := _ |}).
  split.
  - destruct (findOne_finds (db ++ [record])
                (calculateHash (Server.buffer file))) as [found F].
    + exists record. split; [apply in_or_app; right; now left | now left].
    + rewrite F. now exists found.
  - destruct (findOne_finds (db ++ [record])
                (calculateHash (save signedPages))) as [found F].
    + exists record. split; [apply in_or_app; right; now left | now right].
    + rewrite F. now exists found.
Qed.

(** X7.  A signature or image field whose data URL is a non-empty
    text without a comma ends the whole request, wherever it stands in
    the list and whatever the other fields, the document and the
    database are: [Buffer.from] is called on [undefined] outside the
    inner [try], the reply is an error without any signed document, and
    no audit record is written. *)
Theorem missing_payload_aborts_request (db : list Server.Signature)
    (dbUp : bool) (fields : list Field)
    (pdfDimensions : option PageDimensions) (file : Server.Upload) :
  existsb missingPayload fields = true ->
  exists error,
    signPdfRoute db dbUp (Done (fields, pdfDimensions)) file
    = (Server.SignError error, db).
Proof.
  intro M. unfold Server.signPdfRoute.
  destruct (load (Server.buffer file)) as [pages|m]; [|now exists m].
  unfold signPdf. cbn [Backend.pages Backend.fields].
  destruct pages as [|page0 otherPages]; [now eexists|].
  destruct (proj2 (processFields_Thrown_iff embedPng embedJpg today fields
                     {| firstPage := page0; errorLog := [] |}) M)
    as [m E].
  rewrite E. now exists m.
Qed.

(** X23.  A request that is answered with an error leaves the audit
    trail as it was: nothing is recorded for a failed signing. *)
Theorem failed_sign_records_nothing (db db' : list Server.Signature)
    (dbUp : bool)
    (data : Outcome (list Field * option PageDimensions))
    (file : Server.Upload) (error : string) :
  signPdfRoute db dbUp data file = (Server.SignError error, db') ->
  db' = db.
Proof.
  unfold Server.signPdfRoute.
  destruct data as [[fields pdfDimensions]|m].
  - destruct (load (Server.buffer file)) as [pages|].
    + destruct (signPdf embedPng embedJpg today _) as [signedPages log|].
      * destruct dbUp; intro E; inversion E; reflexivity.
      * intro E; inversion E; reflexivity.
    + intro E; inversion E; reflexivity.
  - intro E; inversion E; reflexivity.
Qed.

End ServerFacts.

(** X24.  [/verify-hash] answers with a record only if that record is
    in the collection and carries the hash as its original or its
    signed hash, and it is the earliest such record; it answers "not
    found" exactly when no record carries the hash. *)
Theorem verifyHashRoute_sound_complete (db : list Server.Signature)
    (hash : string) :
  (forall record,
     Server.verifyHashRoute db true hash = Server.Found record ->
     (Server.originalHash record = hash \/
      Server.signedHash record = hash) /\
     exists earlier later,
       db = earlier ++ record :: later /\
       forall r, In r earlier ->
                 Server.originalHash r <> hash /\
                 Server.signedHash r <> hash) /\
  (Server.verifyHashRoute db true hash = Server.NotFound <->
   forall r, In r db ->
             Server.originalHash r <> hash /\ Server.signedHash r <> hash).
Proof.
  unfold Server.verifyHashRoute, Server.findOne.
  set (matches := fun record : Server.Signature =>
         String.eqb (Server.originalHash record) hash ||
         String.eqb (Server.signedHash record) hash).
  assert (No : forall r, matches r = false <->
            Server.originalHash r <> hash /\ Server.signedHash r <> hash).
  { intro r. unfold matches. rewrite orb_false_iff.
    now rewrite !String.eqb_neq. }
  split.
  - intros record. induction db as [|r rest IH]; cbn [find]; [discriminate|].
    destruct (matches r) eqn:M.
    + intro E. inversion E; subst. split.
      * unfold matches in M. apply orb_true_iff in M.
        destruct M as [M|M]; apply String.eqb_eq in M; [now left|now right].
      * exists [], rest. split; [reflexivity | intros ? []].
    + intro E. destruct (IH E) as (Mt & earlier & later & D & N).
      split; [exact Mt|]. exists (r :: earlier), later.
      split; [now rewrite D|].
      intros r0 [<- | I]; [now apply No | now apply N].
  - split.
    + intros E r I. apply No.
      destruct (find matches db) eqn:F; [discriminate|].
      exact (find_none _ _ F r I).
    + intro N. destruct (find matches db) as [r|] eqn:F; [|reflexivity].
      apply find_some in F. destruct F as [I M].
      apply N, No in I. congruence.
Qed.

Lemma sign_then_verify_witness :
  exists record,
    Server.verifyHashRoute
      (snd (Server.signPdfRoute sampleEmbed sampleEmbed "11/1/2026"
              sampleHash sampleLoad sampleSave 1000 [] true
              (Done ([validText], None)) sampleUpload))
      true (sampleHash "%PDF-1.7")
    = Server.Found record.
Proof.
  destruct (sign_then_verify sampleEmbed sampleEmbed "11/1/2026"
              sampleHash sampleLoad sampleSave 1000
              [] _ [validText] None sampleUpload true _ _ _ eq_refl)
    as (_ & _ & _ & V & _).
  exact V.
Defined.

Lemma missing_payload_aborts_request_witness :
  exists error,
    Server.signPdfRoute sampleEmbed sampleEmbed "11/1/2026"
      sampleHash sampleLoad sampleSave 1000 [] true
      (Done ([validText; commalessSignature], None)) sampleUpload
    = (Server.SignError error, []).
Proof.
  exact (missing_payload_aborts_request sampleEmbed sampleEmbed "11/1/2026"
           sampleHash sampleLoad sampleSave 1000 [] true
           [validText; commalessSignature] None sampleUpload eq_refl).
Defined.

Lemma failed_sign_records_nothing_witness :
  snd (Server.signPdfRoute sampleEmbed sampleEmbed "11/1/2026"
         sampleHash sampleLoad sampleSave 1000 [] true
         (Done ([validText], None))
         {| Server.buffer := "not a pdf"; Server.originalname := "x.txt" |})
  = [].
Proof.
  exact (failed_sign_records_nothing sampleEmbed sampleEmbed "11/1/2026"
           sampleHash sampleLoad sampleSave 1000 [] _ true
           (Done ([validText], None))
           {| Server.buffer := "not a pdf"; Server.originalname := "x.txt" |}
           _ eq_refl).
Defined.

(** ** Signing in several passes *)

Section Passes.

Variables (embedPng embedJpg : string -> option EmbeddedImage).
Variable today : string.

Local Abbreviation processField := (processField embedPng embedJpg today).
Local Abbreviation processFields := (processFields embedPng embedJpg today).
Local Abbreviation signPdf := (signPdf embedPng embedJpg today).

(** The lines already in the error log have no influence on an
    iteration; they are only carried along. *)
Lemma processField_log_prefix (page : Page) (log : list string)
    (field : Field) :
  processField {| firstPage := page; errorLog := log |} field =
  match processField {| firstPage := page; errorLog := [] |} field with
  | Done st => Done {| firstPage := firstPage st;
                       errorLog := log ++ errorLog st |}
  | Thrown message => Thrown message
  end.
Proof.
  unfold Backend.processField, drawTextIn, draw, consoleError.
  cbn [firstPage errorLog].
  repeat match goal with
  | |- context [if ?b then _ else _] => destruct b
  | |- context [match ?o with Some _ => _ | None => _ end] => destruct o
  end; cbn [firstPage errorLog app]; rewrite ?app_nil_r; reflexivity.
Qed.

Lemma processFields_log_prefix (fields : list Field) (page : Page)
    (log : list string) :
  processFields fields {| firstPage := page; errorLog := log |} =
  match processFields fields {| firstPage := page; errorLog := [] |} with
  | Done st => Done {| firstPage := firstPage st;
                       errorLog := log ++ errorLog st |}
  | Thrown message => Thrown message
  end.
Proof.
  revert page log. induction fields as [|field rest IH]; intros page log.
  - cbn [Backend.processFields firstPage errorLog].
    now rewrite app_nil_r.
  - cbn [Backend.processFields]. rewrite processField_log_prefix.
    destruct (Backend.processField embedPng embedJpg today
                {| firstPage := page; errorLog := [] |} field)
      as [[page1 log1]|m]; [|reflexivity].
    cbn [firstPage errorLog].
    rewrite (IH page1 (log ++ log1)), (IH page1 log1).
    destruct (Backend.processFields embedPng embedJpg today rest
                {| firstPage := page1; errorLog := [] |})
      as [[page2 log2]|m]; [|reflexivity].
    cbn [firstPage errorLog]. now rewrite app_assoc.
Qed.

(** X25.  Signing with one list of fields and signing the result again
    with a second list gives the same document as signing once with the
    two lists one after the other; the error lines of the two passes
    follow each other. *)
Theorem signPdf_two_passes (first second : list Field)
    (hint1 hint2 hint : option PageDimensions)
    (uploaded once twice : list Page) (log1 log2 : list string) :
  signPdf {| fields := first; pdfDimensions := hint1; pages := uploaded |}
  = Signed once log1 ->
  signPdf {| fields := second; pdfDimensions := hint2; pages := once |}
  = Signed twice log2 ->
  signPdf {| fields := first ++ second; pdfDimensions := hint;
             pages := uploaded |}
  = Signed twice (log1 ++ log2).
Proof.
  unfold Backend.signPdf. cbn [pages fields].
  destruct uploaded as [|page0 otherPages]; [discriminate|].
  destruct (Backend.processFields embedPng embedJpg today first _)
    as [[page1 l1]|] eqn:P1; [|discriminate].
  intro E1. inversion E1; subst once log1. clear E1.
  destruct (Backend.processFields embedPng embedJpg today second _)
    as [[page2 l2]|] eqn:P2; [|discriminate].
  intro E2. inversion E2; subst twice log2. clear E2.
  cbn [firstPage errorLog] in *.
  rewrite processFields_app, P1, processFields_log_prefix, P2.
  reflexivity.
Qed.

End Passes.

Lemma signPdf_two_passes_witness :
  signPdf sampleEmbed sampleEmbed "11/1/2026"
    (requestOf [corruptSignature; validText] None)
  = Signed
      [drawOn blankPage
         (DrawText "Jane Doe"
            (x (transformCoordinatesToPDF (coordinates validText) usLetter)
             + 5)
            (y (transformCoordinatesToPDF (coordinates validText) usLetter)
             + height (transformCoordinatesToPDF (coordinates validText)
                         usLetter) / 2)
            (Qmin (height (transformCoordinatesToPDF (coordinates validText)
                             usLetter) * 0.6) 12))]
      (["Image embed error:"%string] ++ []).
Proof.
  apply (signPdf_two_passes sampleEmbed sampleEmbed "11/1/2026"
           [corruptSignature] [validText] None None None
           [blankPage] [blankPage]); reflexivity.
Defined.

(** ** Container width and scale *)

(** X26.  The container width is capped at 800 pixels, and with a
    positive page width the scale derived from it is positive exactly
    when the container is more than 40 pixels wide; a narrower
    container gives a zero or negative scale. *)
Theorem updateWidth_scale (clientWidth pageW : Q) :
  0 < pageW ->
  Editor.updateWidth clientWidth <= 800 /\
  (0 < scale_of (Editor.updateWidth clientWidth) pageW <-> 40 < clientWidth).
Proof.
  intro HW. unfold Editor.updateWidth, scale_of.
  pose proof (Q.le_min_r (clientWidth - 40) 800) as Cap.
  split; [exact Cap|].
  assert (P : forall a, 0 < a / pageW <-> 0 < a).
  { intro a. split; intro A.
    - apply Qnot_le_lt. intro N.
      assert (a / pageW <= 0 / pageW).
      { unfold Qdiv. apply Qmult_le_compat_r; [exact N|].
        apply Qlt_le_weak, Qinv_lt_0_compat, HW. }
      unfold Qdiv in *. rewrite Qmult_0_l in *. lra.
    - apply Qlt_shift_div_l; lra. }
  rewrite P.
  destruct (Q.min_spec (clientWidth - 40) 800) as [[L E]|[L E]];
    rewrite E; split; intro A; lra.
Qed.

Lemma updateWidth_scale_witness :
  Editor.updateWidth 1280 <= 800 /\
  (0 < scale_of (Editor.updateWidth 30) 612 <-> 40 < 30).
Proof.
  split.
  - apply (updateWidth_scale 1280 612). reflexivity.
  - apply (updateWidth_scale 30 612). reflexivity.
Defined.
